(** * crypto_agent: paper-trading ledger, indicators, signals and backtest

    A shallow embedding of [portfolio.py], [strategy.py], [market_data.py]
    and [backtest.py].

    Numbers.  Python and numpy floats are modelled by exact rationals [Q];
    a pandas NaN is [None] in an [option Q].  Equality of numbers is [Qeq]
    ([==]); the tests [x == 0], [x < y] of the source are the boolean tests
    [Qeq_bool], [Qltb] below.  Where the source divides, the embedding says
    what happens on a zero divisor: a Python [float / float] raises
    [ZeroDivisionError], a numpy division yields a non-finite value, which
    the rational model does not represent and reports as [None]. *)

From Stdlib Require Import QArith Qround Qabs Lqa Lia List String Bool Arith ZArith.
From Stdlib Require Import DecimalString.
Import ListNotations.
Open Scope Q_scope.

(** ** Numeric helpers *)

Definition Qltb (a b : Q) : bool := negb (Qle_bool b a).
Definition Qleb (a b : Q) : bool := Qle_bool a b.

(** Sum of a list of numbers, left to right from 0 as Python's [+=] loop. *)
Definition Qsum (l : list Q) : Q := fold_left Qplus l 0.

(** ** Python dict with string keys: insertion-ordered association list *)

Module Dict.
Section Dict.
Context {V : Type}.

Definition t := list (string * V).

Fixpoint get (k : string) (d : t) : option V :=
  match d with
  | [] => None
  | (k', v) :: d' => if String.eqb k k' then Some v else get k d'
  end.

Definition mem (k : string) (d : t) : bool :=
  match get k d with Some _ => true | None => false end.

(** [d[k] = v]: an existing key keeps its place, a new key goes last. *)
Fixpoint set (k : string) (v : V) (d : t) : t :=
  match d with
  | [] => [(k, v)]
  | (k', v') :: d' =>
      if String.eqb k k' then (k', v) :: d' else (k', v') :: set k v d'
  end.

(** [del d[k]] *)
Fixpoint del (k : string) (d : t) : t :=
  match d with
  | [] => []
  | (k', v') :: d' =>
      if String.eqb k k' then d' else (k', v') :: del k d'
  end.

Definition keys_unique (d : t) : Prop := NoDup (map fst d).

End Dict.
Arguments t : clear implicits.
End Dict.

(** ** portfolio.py *)

(** What a call does besides changing the ledger: it returns [True] or
    [False], or a float division by zero raises [ZeroDivisionError]. *)
Inductive outcome := ReturnTrue | ReturnFalse | RaiseZeroDivision.

(** Upbit fee, 0.05%: the literal [0.0005]. *)
Definition fee_rate : Q := 5 # 10000.

Module Position.
Record t := mk {
  market : string;
  amount_krw : Q;
  entry_price : Q;
  quantity : Q;
  entry_time : Z
}.

Definition current_value (self : t) (current_price : Q) : Q :=
  quantity self * current_price.

Definition pnl (self : t) (current_price : Q) : Q :=
  current_value self current_price - amount_krw self.

Definition pnl_pct (self : t) (current_price : Q) : Q :=
  if Qeq_bool (amount_krw self) 0 then 0
  else (pnl self current_price / amount_krw self) * 100.
End Position.

(** An entry of [trade_history]: the two dict shapes the ledger appends. *)
Inductive TradeRecord :=
| BuyRecord (time : Z) (market : string) (price amount_krw quantity : Q)
| SellRecord (time : Z) (market : string) (price proceeds_krw profit_krw : Q).

Module Portfolio.
Record t := mk {
  cash_krw : Q;
  positions : Dict.t Position.t;
  trade_history : list TradeRecord
}.

(** [Portfolio(initial_krw)] *)
Definition init (initial_krw : Q) : t := mk initial_krw [] [].

(** [buy]; [now] is the reading of [datetime.now()] during the call. *)
Definition buy (now : Z) (self : t) (market : string)
    (amount_krw current_price : Q) : t * outcome :=
  if Qltb (cash_krw self) amount_krw then (self, ReturnFalse)
  else if Qeq_bool current_price 0 then (self, RaiseZeroDivision)
  else
    let quantity := amount_krw / current_price in
    let fee := amount_krw * fee_rate in
    let history := trade_history self ++
      [BuyRecord now market current_price amount_krw quantity] in
    match Dict.get market (positions self) with
    | Some pos =>
        let total_qty := Position.quantity pos + quantity in
        let total_krw := Position.amount_krw pos + amount_krw in
        if Qeq_bool total_qty 0 then (self, RaiseZeroDivision)
        else
          let pos' := Position.mk (Position.market pos) total_krw
                        (total_krw / total_qty) total_qty
                        (Position.entry_time pos) in
          (mk (cash_krw self - (amount_krw + fee))
              (Dict.set market pos' (positions self)) history, ReturnTrue)
    | None =>
        let pos' := Position.mk market amount_krw current_price quantity now in
        (mk (cash_krw self - (amount_krw + fee))
            (Dict.set market pos' (positions self)) history, ReturnTrue)
    end.

(** [sell].  The closing [print] formats [profit / pos.amount_krw * 100]:
    with a zero invested amount it raises after the ledger was updated. *)
Definition sell (now : Z) (self : t) (market : string)
    (current_price : Q) : t * outcome :=
  match Dict.get market (positions self) with
  | None => (self, ReturnFalse)
  | Some pos =>
      let proceeds := Position.quantity pos * current_price in
      let fee := proceeds * fee_rate in
      let net_proceeds := proceeds - fee in
      let profit := net_proceeds - Position.amount_krw pos in
      let self' :=
        mk (cash_krw self + net_proceeds)
           (Dict.del market (positions self))
           (trade_history self ++
              [SellRecord now market current_price net_proceeds profit]) in
      if Qeq_bool (Position.amount_krw pos) 0
      then (self', RaiseZeroDivision)
      else (self', ReturnTrue)
  end.

Record PositionDetail := mkDetail {
  d_market : string;
  d_entry_price : Q;
  d_current_price : Q;
  d_quantity : Q;
  d_invested_krw : Q;
  d_current_value_krw : Q;
  d_pnl_krw : Q;
  d_pnl_pct : Q
}.

Record Returns := mkReturns {
  total_value_krw : Q;
  r_cash_krw : Q;
  positions_value_krw : Q;
  total_invested_krw : Q;
  total_pnl_krw : Q;
  total_pnl_pct : Q;
  r_positions : list PositionDetail;
  trade_count : nat
}.

(** The price used for a position: [current_prices.get(market, pos.entry_price)]. *)
Definition price_of (current_prices : Dict.t Q) (market : string)
    (pos : Position.t) : Q :=
  match Dict.get market current_prices with
  | Some p => p
  | None => Position.entry_price pos
  end.

(** One turn of the loop over [self.positions.items()]; the accumulator is
    [(total_invested, total_current, positions_detail)]. *)
Definition returns_step (current_prices : Dict.t Q)
    (acc : Q * Q * list PositionDetail) (item : string * Position.t)
    : Q * Q * list PositionDetail :=
  let '(total_invested, total_current, positions_detail) := acc in
  let '(market, pos) := item in
  let price := price_of current_prices market pos in
  let cur_val := Position.current_value pos price in
  let pnl := Position.pnl pos price in
  let pnl_pct := Position.pnl_pct pos price in
  (total_invested + Position.amount_krw pos,
   total_current + cur_val,
   positions_detail ++
     [mkDetail market (Position.entry_price pos) price
        (Position.quantity pos) (Position.amount_krw pos) cur_val pnl pnl_pct]).

(** [calculate_returns]; an absent or empty [current_prices] is [[]]. *)
Definition calculate_returns (self : t) (current_prices : Dict.t Q) : Returns :=
  let '(total_invested, total_current, positions_detail) :=
    fold_left (returns_step current_prices) (positions self) (0, 0, []) in
  let total_value := cash_krw self + total_current in
  let total_pnl := total_current - total_invested in
  let total_pnl_pct :=
    if Qltb 0 total_invested then total_pnl / total_invested * 100 else 0 in
  mkReturns total_value (cash_krw self) total_current total_invested
    total_pnl total_pnl_pct positions_detail (List.length (trade_history self)).
End Portfolio.

(** ** The pandas and numpy operations the sources use

    A [Series] of floats is a list of [option Q], [None] being NaN.  The
    operations follow the pandas semantics of the calls as the sources
    write them (default arguments included). *)

Module Pandas.
Definition series := list (option Q).

Fixpoint zip_with {A B C : Type} (f : A -> B -> C)
    (l1 : list A) (l2 : list B) : list C :=
  match l1, l2 with
  | a :: l1', b :: l2' => f a b :: zip_with f l1' l2'
  | _, _ => []
  end.

Definition notna (v : option Q) : bool :=
  match v with Some _ => true | None => false end.

(** Arithmetic with NaN: NaN in, NaN out. *)
Definition lift2 (f : Q -> Q -> Q) (a b : option Q) : option Q :=
  match a, b with
  | Some x, Some y => Some (f x y)
  | _, _ => None
  end.

(** Comparisons with NaN are [False]. *)
Definition cmp2 (f : Q -> Q -> bool) (a b : option Q) : bool :=
  match a, b with
  | Some x, Some y => f x y
  | _, _ => false
  end.

Definition lt (a b : option Q) : bool := cmp2 Qltb a b.
Definition le (a b : option Q) : bool := cmp2 Qleb a b.
Definition gt (a b : option Q) : bool := cmp2 (fun x y => Qltb y x) a b.
Definition ge (a b : option Q) : bool := cmp2 (fun x y => Qleb y x) a b.

(** [s.shift(1)] *)
Definition shift1 (s : series) : series :=
  match s with
  | [] => []
  | _ :: _ => None :: removelast s
  end.

(** [s.diff()] *)
Definition diff (s : series) : series :=
  zip_with (lift2 Qminus) s (shift1 s).

(** [s.clip(lower=lo)] and [s.clip(upper=hi)] *)
Definition clip_lower (lo : Q) (s : series) : series :=
  map (option_map (fun x => if Qltb x lo then lo else x)) s.

Definition clip_upper (hi : Q) (s : series) : series :=
  map (option_map (fun x => if Qltb hi x then hi else x)) s.

(** [-s] *)
Definition neg (s : series) : series := map (option_map Qopp) s.

(** [s.replace(0, np.nan)] *)
Definition replace_zero_nan (s : series) : series :=
  map (fun v => match v with
                | Some x => if Qeq_bool x 0 then None else Some x
                | None => None
                end) s.

(** [a / b] on floats of numpy: a zero divisor gives a non-finite value,
    which the model does not represent ([None]). *)
Definition div (a b : option Q) : option Q :=
  match a, b with
  | Some x, Some y => if Qeq_bool y 0 then None else Some (x / y)
  | _, _ => None
  end.

(** The values of a window when none is NaN. *)
Fixpoint observations (l : series) : option (list Q) :=
  match l with
  | [] => Some []
  | Some x :: l' =>
      match observations l' with
      | Some xs => Some (x :: xs)
      | None => None
      end
  | None :: l' => None
  end.

(** The mean [rolling(w).mean()] gives at the last index of [pre]:
    [min_periods] defaults to [w], so the window must hold [w] values,
    none of them NaN; an empty window ([w = 0]) has no mean. *)
Definition window_mean (w : nat) (pre : series) : option Q :=
  if (w =? 0)%nat then None
  else if (List.length pre <? w)%nat then None
  else
    match observations (skipn (List.length pre - w) pre) with
    | Some xs => Some (Qsum xs / inject_Z (Z.of_nat w))
    | None => None
    end.

(** [s.rolling(w).mean()]: index [i] sees the prefix [s[0..i]] only. *)
Definition rolling_mean (w : nat) (s : series) : series :=
  map (fun i => window_mean w (firstn (S i) s)) (seq 0 (List.length s)).

(** State of the [ewm] recurrence of pandas ([adjust=True],
    [ignore_na=False]): the running weighted mean, the weight of the
    past, and the number of observations seen. *)
Record ewm_state := mkEwm {
  weighted : option Q;
  old_wt : Q;
  nobs : nat
}.

Definition is_observation (v : option Q) : nat :=
  match v with Some _ => 1%nat | None => 0%nat end.

(** One turn of the recurrence on the next value [cur].  The divisor
    [old_wt + new_wt] is at least 1 ([new_wt = 1], [old_wt >= 0]). *)
Definition ewm_step (alpha : Q) (st : ewm_state) (cur : option Q) : ewm_state :=
  let old_wt_factor := 1 - alpha in
  let new_wt := 1 in
  let nobs' := (nobs st + is_observation cur)%nat in
  match weighted st with
  | Some w =>
      let old_wt' := old_wt st * old_wt_factor in
      match cur with
      | Some c =>
          let w' := if Qeq_bool w c then w
                    else (old_wt' * w + new_wt * c) / (old_wt' + new_wt) in
          mkEwm (Some w') (old_wt' + new_wt) nobs'
      | None => mkEwm (Some w) old_wt' nobs'
      end
  | None =>
      match cur with
      | Some c => mkEwm (Some c) (old_wt st) nobs'
      | None => mkEwm None (old_wt st) nobs'
      end
  end.

Definition ewm_output (minp : nat) (st : ewm_state) : option Q :=
  if (minp <=? nobs st)%nat then weighted st else None.

Fixpoint ewm_loop (alpha : Q) (minp : nat) (st : ewm_state)
    (vals : series) : series :=
  match vals with
  | [] => []
  | cur :: rest =>
      let st' := ewm_step alpha st cur in
      ewm_output minp st' :: ewm_loop alpha minp st' rest
  end.

(** [s.ewm(com=com, min_periods=min_periods).mean()].  A negative [com]
    raises [ValueError] ([None]). *)
Definition ewm_mean (com : Q) (min_periods : nat) (vals : series)
    : option series :=
  if Qltb com 0 then None
  else
    let alpha := 1 / (1 + com) in
    let minp := Nat.max min_periods 1 in
    match vals with
    | [] => Some []
    | v0 :: rest =>
        let st0 := mkEwm v0 1 (is_observation v0) in
        Some (ewm_output minp st0 :: ewm_loop alpha minp st0 rest)
    end.

(** [np.maximum], [np.minimum] of two floats. *)
Definition maximum (a b : Q) : Q := if Qltb a b then b else a.
Definition minimum (a b : Q) : Q := if Qltb b a then b else a.

(** [np.maximum.accumulate] *)
Fixpoint accumulate_from (peak : Q) (l : list Q) : list Q :=
  match l with
  | [] => []
  | x :: l' => let p := maximum peak x in p :: accumulate_from p l'
  end.

Definition maximum_accumulate (l : list Q) : list Q :=
  match l with
  | [] => []
  | x :: l' => x :: accumulate_from x l'
  end.

(** [100 - (100 / (1 + rs))] on a series. *)
Definition rsi_of_rs (rs : series) : series :=
  map (fun v => lift2 Qminus (Some 100) (div (Some 100) (lift2 Qplus (Some 1) v))) rs.
End Pandas.

(** ** config.py

    [config.py] is not among the sources; [backtest.py] repeats its
    parameters (its comment says they are those of [config.py]). *)

Module Config.
Definition RSI_PERIOD : nat := 14.
Definition RSI_OVERSOLD : Q := 30.
Definition RSI_OVERBOUGHT : Q := 70.
Definition MA_SHORT : nat := 5.
Definition MA_LONG : nat := 20.
Definition INITIAL_CAPITAL : Q := 1000000.
End Config.

(** ** market_data.py *)

Module MarketData.
Import Pandas.

(** A candle as [fetch_candles] returns it. *)
Record Candle := mkCandle {
  timestamp : Z;
  open : Q;
  high : Q;
  low : Q;
  close : Q;
  volume : Q
}.

(** A row of the frame [get_market_data] returns. *)
Record Row := mkRow {
  candle : Candle;
  rsi : option Q;
  ma_short : option Q;
  ma_long : option Q
}.

(** [calculate_rsi]: Wilder smoothing; [None] is the [ValueError] of
    [ewm] on [com = period - 1 < 0]. *)
Definition calculate_rsi (series : Pandas.series) (period : nat)
    : option Pandas.series :=
  let delta := diff series in
  let gain := clip_lower 0 delta in
  let loss := neg (clip_upper 0 delta) in
  let com := inject_Z (Z.of_nat period) - 1 in
  match ewm_mean com period gain, ewm_mean com period loss with
  | Some avg_gain, Some avg_loss =>
      let rs := zip_with div avg_gain (replace_zero_nan avg_loss) in
      Some (rsi_of_rs rs)
  | _, _ => None
  end.

Fixpoint make_rows (df : list Candle) (rsi ma_short ma_long : series)
    : list Row :=
  match df, rsi, ma_short, ma_long with
  | c :: df', r :: rsi', s :: ma_short', l :: ma_long' =>
      mkRow c r s l :: make_rows df' rsi' ma_short' ma_long'
  | _, _, _, _ => []
  end.

(** [get_market_data] on the candles [fetch_candles] returned:
    [calculate_rsi] on the closes, then [calculate_moving_averages]. *)
Definition get_market_data (df : list Candle) : option (list Row) :=
  let closes := map (fun c => Some (close c)) df in
  match calculate_rsi closes Config.RSI_PERIOD with
  | Some rsi =>
      Some (make_rows df rsi
              (rolling_mean Config.MA_SHORT closes)
              (rolling_mean Config.MA_LONG closes))
  | None => None
  end.
End MarketData.

(** ** Number formatting ([round(x, 2)] and the [.1f] format) on exact values *)

Definition round_half_even (q : Q) : Z :=
  let f := Qfloor q in
  let r := q - inject_Z f in
  if Qltb r (1 # 2) then f
  else if Qltb (1 # 2) r then (f + 1)%Z
  else if Z.even f then f else (f + 1)%Z.

Definition round2 (q : Q) : Q := inject_Z (round_half_even (q * 100)) / 100.

Definition decimal (n : Z) : string :=
  NilZero.string_of_uint (N.to_uint (Z.to_N n)).

Definition format_1f (q : Q) : string :=
  let tenths := round_half_even (Qabs q * 10) in
  ((if Qltb q 0 then "-" else "") ++
   decimal (tenths / 10) ++ "." ++ decimal (tenths mod 10))%string.

(** ** strategy.py *)

Module Strategy.
Import Pandas MarketData.

Inductive decision := BUY | SELL | HOLD.

Record Signal := mkSignal {
  s_market : string;
  signal : decision;
  s_rsi : option Q;
  s_ma_short : option Q;
  s_ma_long : option Q;
  s_close : option Q;
  reason : string
}.

(** [check_ma_crossover]: [rev df] starts with [df.iloc[-1]], [df.iloc[-2]]. *)
Definition check_ma_crossover (df : list Row) : bool * bool :=
  match rev df with
  | curr :: prev :: _ =>
      match ma_short prev, ma_long prev, ma_short curr, ma_long curr with
      | Some prev_short, Some prev_long, Some curr_short, Some curr_long =>
          let golden_cross :=
            Qltb prev_short prev_long && Qleb curr_long curr_short in
          let dead_cross :=
            Qltb prev_long prev_short && Qleb curr_short curr_long in
          (golden_cross, dead_cross)
      | _, _, _, _ => (false, false)
      end
  | _ => (false, false)
  end.

Definition hold_reason (rsi ma_short ma_long : option Q) : string :=
  let rsi_part : list string :=
    match rsi with
    | Some r => [("RSI=" ++ format_1f r)%string]
    | None => []
    end in
  let trend_part : list string :=
    match ma_short, ma_long with
    | Some s, Some l =>
        [if Qltb l s then "단기>장기(상승세)"%string
         else "단기<장기(하락세)"%string]
    | _, _ => []
    end in
  let parts := (rsi_part ++ trend_part)%list in
  match parts with
  | [] => "조건 미충족"%string
  | _ => String.concat ", " parts
  end.

(** [generate_signal] *)
Definition generate_signal (df : list Row) (market : string) : Signal :=
  if (List.length df <? 2)%nat then
    mkSignal market HOLD None None None None "데이터 부족"
  else
    match rev df with
    | [] => mkSignal market HOLD None None None None "데이터 부족"
    | latest :: _ =>
        let rsi := rsi latest in
        let ma_short := ma_short latest in
        let ma_long := ma_long latest in
        let close := close (candle latest) in
        let '(golden_cross, dead_cross) := check_ma_crossover df in
        let '(signal, reason) :=
          if lt rsi (Some Config.RSI_OVERSOLD) && golden_cross then
            (BUY, match rsi with
                  | Some r => ("RSI=" ++ format_1f r ++ " (과매도) + 골든크로스")%string
                  | None => EmptyString
                  end)
          else if gt rsi (Some Config.RSI_OVERBOUGHT) && dead_cross then
            (SELL, match rsi with
                   | Some r => ("RSI=" ++ format_1f r ++ " (과매수) + 데드크로스")%string
                   | None => EmptyString
                   end)
          else (HOLD, hold_reason rsi ma_short ma_long) in
        mkSignal market signal
          (option_map round2 rsi) (option_map round2 ma_short)
          (option_map round2 ma_long) (Some close) reason
    end.
End Strategy.

(** ** backtest.py *)

Module Backtest.
Import Pandas.

Definition RSI_PERIOD : nat := 14.
Definition RSI_OVERSOLD : Q := 30.
Definition RSI_OVERBOUGHT : Q := 70.
Definition MA_SHORT : nat := 5.
Definition MA_LONG : nat := 20.
Definition INITIAL_CAPITAL : Q := 1000000.

(** A daily bar as [fetch_candles] returns it. *)
Record Bar := mkBar {
  date : Z;
  open : Q;
  high : Q;
  low : Q;
  close : Q;
  volume : Q
}.

(** A row of the frame after [add_indicators]. *)
Record Row := mkRow {
  bar : Bar;
  rsi : option Q;
  ma5 : option Q;
  ma20 : option Q;
  golden : bool;
  dead : bool
}.

(** [calc_rsi]: rolling-mean smoothing. *)
Definition calc_rsi (series : Pandas.series) (period : nat) : Pandas.series :=
  let delta := diff series in
  let gain := rolling_mean period (clip_lower 0 delta) in
  let loss := rolling_mean period (neg (clip_upper 0 delta)) in
  let rs := zip_with div gain (replace_zero_nan loss) in
  rsi_of_rs rs.

Fixpoint make_rows (df : list Bar) (rsi ma5 ma20 : series)
    (golden dead : list bool) : list Row :=
  match df, rsi, ma5, ma20, golden, dead with
  | b :: df', r :: rsi', s :: ma5', l :: ma20', g :: golden', d :: dead' =>
      mkRow b r s l g d :: make_rows df' rsi' ma5' ma20' golden' dead'
  | _, _, _, _, _, _ => []
  end.

(** [add_indicators] *)
Definition add_indicators (df : list Bar) : list Row :=
  let closes := map (fun b => Some (close b)) df in
  let rsi := calc_rsi closes RSI_PERIOD in
  let ma5 := rolling_mean MA_SHORT closes in
  let ma20 := rolling_mean MA_LONG closes in
  let golden := zip_with andb (zip_with le (shift1 ma5) (shift1 ma20))
                             (zip_with gt ma5 ma20) in
  let dead := zip_with andb (zip_with ge (shift1 ma5) (shift1 ma20))
                           (zip_with lt ma5 ma20) in
  make_rows df rsi ma5 ma20 golden dead.

(** [df.dropna(subset=["rsi", "ma5", "ma20"])] *)
Definition complete (row : Row) : bool :=
  notna (rsi row) && notna (ma5 row) && notna (ma20 row).

Definition dropna (df : list Row) : list Row := filter complete df.

(** A completed round trip, an entry of [trades]. *)
Record Trade := mkTrade {
  t_entry_date : option Z;
  t_exit_date : Z;
  t_entry_price : Q;
  t_exit_price : Q;
  t_pnl_krw : Q;
  t_pnl_pct : Q;
  t_reason : string
}.

(** The local variables of the loop of [run_backtest]. *)
Record State := mkState {
  cash : Q;
  position : Q;
  entry_price : Q;
  entry_date : option Z;
  trades : list Trade;
  equity : list Q
}.

Definition initial_state (capital : Q) : State :=
  mkState capital 0 0 None [] [].

Definition sell_reason (sell_rsi sell_dead : bool) : string :=
  ((if sell_rsi then "RSI 과매수" else "") ++
   (if sell_dead && sell_rsi then " + 데드크로스"
    else if sell_dead then "데드크로스" else ""))%string.

(** The entry and exit branches of one turn of the loop, before the equity
    is recorded.  [None]: a division by zero, whose non-finite result the
    model does not represent. *)
Definition decide (st : State) (row : Row) : option State :=
  let close := close (bar row) in
  let rsi := rsi row in
  if Qeq_bool (position st) 0 && notna rsi && lt rsi (Some RSI_OVERSOLD) then
    if Qeq_bool close 0 then None
    else Some (mkState 0 (cash st / close) close (Some (date (bar row)))
                 (trades st) (equity st))
  else if Qltb 0 (position st) && notna rsi then
    let sell_rsi := gt rsi (Some RSI_OVERBOUGHT) in
    let sell_dead := dead row in
    if sell_rsi || sell_dead then
      let exit_val := position st * close in
      let pnl_krw := exit_val - position st * entry_price st in
      if Qeq_bool (entry_price st) 0 then None
      else
        let pnl_pct := (close - entry_price st) / entry_price st * 100 in
        let reason := sell_reason sell_rsi sell_dead in
        Some (mkState exit_val 0 (entry_price st) (entry_date st)
                (trades st ++
                   [mkTrade (entry_date st) (date (bar row)) (entry_price st)
                      close pnl_krw pnl_pct reason])
                (equity st))
    else Some st
  else Some st.

(** One turn of the loop: decide, then [equity.append(cash + position * close)]. *)
Definition step (st : State) (row : Row) : option State :=
  match decide st row with
  | Some st' =>
      Some (mkState (cash st') (position st') (entry_price st')
              (entry_date st') (trades st')
              (equity st' ++ [cash st' + position st' * close (bar row)]))
  | None => None
  end.

Fixpoint loop (st : State) (df : list Row) : option State :=
  match df with
  | [] => Some st
  | row :: df' =>
      match step st row with
      | Some st' => loop st' df'
      | None => None
      end
  end.

(** The forced liquidation of a position still open after the loop;
    [last] is [df.iloc[-1]]. *)
Definition liquidate (st : State) (df : list Row) : option State :=
  if Qltb 0 (position st) then
    match rev df with
    | [] => None
    | last :: _ =>
        let exit_val := position st * close (bar last) in
        let pnl_krw := exit_val - position st * entry_price st in
        if Qeq_bool (entry_price st) 0 then None
        else
          let pnl_pct :=
            (close (bar last) - entry_price st) / entry_price st * 100 in
          Some (mkState exit_val (position st) (entry_price st) (entry_date st)
                  (trades st ++
                     [mkTrade (entry_date st) (date (bar last))
                        (entry_price st) (close (bar last)) pnl_krw pnl_pct
                        "기간 종료 강제 청산"])
                  (equity st ++ [exit_val]))
    end
  else Some st.

(** The drawdown series [(eq_arr - peak) / peak * 100]. *)
Definition drawdowns (equity : list Q) : list (option Q) :=
  zip_with (fun e p => lift2 Qmult (div (Some (e - p)) (Some p)) (Some 100))
    equity (maximum_accumulate equity).

(** [dd.min()] of a non-empty array. *)
Definition array_min (x : Q) (l : list Q) : Q := fold_left minimum l x.

(** [mdd]: [float(dd.min()) if len(dd) else 0.0]. *)
Definition max_drawdown (equity : list Q) : option Q :=
  match observations (drawdowns equity) with
  | Some [] => Some 0
  | Some (d :: dd) => Some (array_min d dd)
  | None => None
  end.

Record Report := mkReport {
  r_initial : Q;
  r_final : Q;
  r_total_return : Q;
  r_n_trades : nat;
  r_win_rate : Q;
  r_mdd : Q;
  r_trades : list Trade;
  r_df_len : nat;
  r_equity : list Q  (* the local [equity], kept for the statements *)
}.

(** What [run_backtest] yields: the empty dict when no candle came back,
    the report, or a division by zero on the way. *)
Inductive result :=
| NoData
| DivisionByZero
| Done (r : Report).

Definition nat_Q (n : nat) : Q := inject_Z (Z.of_nat n).

(** The statistics computed after the loop. *)
Definition summarize (capital : Q) (df : list Row) (st : State) : result :=
  let final_capital := cash st in
  let n := List.length (trades st) in
  if Qeq_bool capital 0 then DivisionByZero
  else
    let total_return := (final_capital - capital) / capital * 100 in
    let win_trades := filter (fun t => Qltb 0 (t_pnl_pct t)) (trades st) in
    let win_rate :=
      if (n =? 0)%nat then 0
      else nat_Q (List.length win_trades) / nat_Q n * 100 in
    match max_drawdown (equity st) with
    | Some mdd =>
        Done (mkReport capital final_capital total_return n win_rate mdd
                (trades st) (List.length df) (equity st))
    | None => DivisionByZero
    end.

(** [run_backtest] on the candles [candles] that [fetch_candles] returned. *)
Definition run_backtest (candles : list Bar) (capital : Q) : result :=
  match candles with
  | [] => NoData
  | _ :: _ =>
      let df := dropna (add_indicators candles) in
      match loop (initial_state capital) df with
      | Some st =>
          match liquidate st df with
          | Some st' => summarize capital df st'
          | None => DivisionByZero
          end
      | None => DivisionByZero
      end
  end.
End Backtest.

(** ** backtest.py: the combined totals of the report, and [main] *)

Module Report.
Import Backtest.

Record Combined := mkCombined {
  combined_init : Q;
  combined_final : Q;
  combined_ret : Q
}.

(** One turn of the loop of [print_report]: an empty dict ([None]) is
    skipped, a result adds its initial and final capital. *)
Definition totals_step (acc : Q * Q) (r : option Backtest.Report) : Q * Q :=
  match r with
  | None => acc
  | Some r => (fst acc + r_initial r, snd acc + r_final r)
  end.

(** The totals [print_report] prints under the per-market blocks. *)
Definition print_report (results : list (option Backtest.Report)) : Combined :=
  let '(combined_init, combined_final) :=
    fold_left totals_step results (0, 0) in
  let combined_ret :=
    if Qeq_bool combined_init 0 then 0
    else (combined_final - combined_init) / combined_init * 100 in
  mkCombined combined_init combined_final combined_ret.

(** [[r for r in results if r]]: the empty dicts are left out; [None] when
    a run divided by zero. *)
Fixpoint non_empty (results : list Backtest.result)
    : option (list (option Backtest.Report)) :=
  match results with
  | [] => Some []
  | NoData :: rest => non_empty rest
  | Done r :: rest => option_map (cons (Some r)) (non_empty rest)
  | DivisionByZero :: _ => None
  end.

(** [main] on the candles fetched for each market of [TRADING_PAIRS]. *)
Definition main (fetched : list (list Bar)) : option Combined :=
  option_map print_report
    (non_empty (map (fun candles => run_backtest candles INITIAL_CAPITAL)
                  fetched)).
End Report.

(** ** main.py: one run of the paper-trading agent *)

Module Main.
Import MarketData Strategy.

(** How [run_once] ends: it returns, or an exception leaves it. *)
Inductive status :=
| Finished
| RaisedTypeError
| RaisedValueError
| RaisedZeroDivision.

(** What the first loop of [run_once] hands to the second. *)
Inductive analysis :=
| Analysed (signals : list Signal) (current_prices : Dict.t Q)
| Failed (why : status).

(** The first loop, over the markets and the candles fetched for each:
    a market without data is skipped; the line that prints the price
    formats [signal_info["close"]] with [:>12,.0f], a [TypeError] when it
    is [None]. *)
Fixpoint analyse (fetched : list (string * list Candle))
    (signals : list Signal) (current_prices : Dict.t Q) : analysis :=
  match fetched with
  | [] => Analysed signals current_prices
  | (market, candles) :: rest =>
      match get_market_data candles with
      | None => Failed RaisedValueError
      | Some [] => analyse rest signals current_prices
      | Some df =>
          let signal_info := generate_signal df market in
          match s_close signal_info with
          | None => Failed RaisedTypeError
          | Some price =>
              analyse rest (signals ++ [signal_info])
                (Dict.set market price current_prices)
          end
      end
  end.

Section RunOnce.
(** [TRADE_AMOUNT_KRW] of [config.py], which is not among the sources. *)
Variable TRADE_AMOUNT_KRW : Q.
(** The reading of [datetime.now()] during the run. *)
Variable now : Z.

(** The second loop: the paper trades. *)
Fixpoint trade (portfolio : Portfolio.t) (signals : list Signal)
    (current_prices : Dict.t Q) : Portfolio.t * status :=
  match signals with
  | [] => (portfolio, Finished)
  | s :: rest =>
      let market := s_market s in
      match Dict.get market current_prices with
      | None => trade portfolio rest current_prices
      | Some price =>
          match signal s with
          | BUY =>
              if Dict.mem market (Portfolio.positions portfolio)
              then trade portfolio rest current_prices
              else
                match Portfolio.buy now portfolio market
                        TRADE_AMOUNT_KRW price with
                | (portfolio', RaiseZeroDivision) =>
                    (portfolio', RaisedZeroDivision)
                | (portfolio', _) => trade portfolio' rest current_prices
                end
          | SELL =>
              if Dict.mem market (Portfolio.positions portfolio)
              then
                match Portfolio.sell now portfolio market price with
                | (portfolio', RaiseZeroDivision) =>
                    (portfolio', RaisedZeroDivision)
                | (portfolio', _) => trade portfolio' rest current_prices
                end
              else trade portfolio rest current_prices
          | HOLD => trade portfolio rest current_prices
          end
      end
  end.

(** [run_once] on the candles fetched for each market of
    [TRADING_PAIRS], in their order. *)
Definition run_once (portfolio : Portfolio.t)
    (fetched : list (string * list Candle)) : Portfolio.t * status :=
  match analyse fetched [] [] with
  | Analysed signals current_prices => trade portfolio signals current_prices
  | Failed why => (portfolio, why)
  end.
End RunOnce.
End Main.

(** ** Vocabulary of the statements *)

(** The invested amounts of the open positions, and their value at the
    prices [calculate_returns] uses. *)
Definition invested (positions : Dict.t Position.t) : Q :=
  Qsum (map (fun item => Position.amount_krw (snd item)) positions).

Definition positions_value (current_prices : Dict.t Q)
    (positions : Dict.t Position.t) : Q :=
  Qsum (map (fun item =>
               Position.current_value (snd item)
                 (Portfolio.price_of current_prices (fst item) (snd item)))
          positions).

(** A ledger as Python can hold it: the keys of a dict are distinct. *)
Definition well_formed (pf : Portfolio.t) : Prop :=
  Dict.keys_unique (Portfolio.positions pf).

(** An equity curve that never falls. *)
Fixpoint nondecreasing (l : list Q) : Prop :=
  match l with
  | x :: (y :: _) as l' => x <= y /\ nondecreasing l'
  | _ => True
  end.

(** A series whose defined values are not negative. *)
Definition nonneg_series (s : Pandas.series) : Prop :=
  Forall (fun v => forall x, v = Some x -> 0 <= x) s.

(** The invariant of the [ewm] recurrence on a non-negative series: the
    weight of the past is not negative, nor is the running mean. *)
Definition ewm_ok (st : Pandas.ewm_state) : Prop :=
  0 <= Pandas.old_wt st /\ forall w, Pandas.weighted st = Some w -> 0 <= w.

(** A position leaves the loop's state in full at the close of [row]: the
    quantity goes to 0, the cash becomes its value at the close, and one
    trade is recorded, at that close and date. *)
Definition exited (st : Backtest.State) (row : Backtest.Row)
    (st' : Backtest.State) (reason : string) : Prop :=
  Backtest.position st' == 0 /\
  Backtest.cash st' == Backtest.position st * Backtest.close (Backtest.bar row) /\
  exists t,
    Backtest.trades st' = (Backtest.trades st ++ [t])%list /\
    Backtest.t_exit_price t = Backtest.close (Backtest.bar row) /\
    Backtest.t_exit_date t = Backtest.date (Backtest.bar row) /\
    Backtest.t_reason t = reason.

(** The state of the loop between two bars, for a positive capital and
    positive closes: either flat with all the value in cash, or all in the
    position, entered at a positive price; every equity point is positive. *)
Definition bt_inv (st : Backtest.State) : Prop :=
  ((Backtest.position st == 0 /\ 0 < Backtest.cash st) \/
   (0 < Backtest.position st /\ Backtest.cash st == 0 /\
    0 < Backtest.entry_price st)) /\
  Forall (fun e => 0 < e) (Backtest.equity st).

(** Daily bars at the given closes, dated by their index. *)
Definition bars_of_closes (closes : list Q) : list Backtest.Bar :=
  map (fun ic => Backtest.mkBar (Z.of_nat (fst ic)) (snd ic) (snd ic)
                   (snd ic) (snd ic) 1)
      (combine (seq 0 (List.length closes)) closes).

(** Twenty-two bars whose close falls by 1 a day, from 130 to 109. *)
Definition declining : list Backtest.Bar :=
  bars_of_closes (map (fun i => 130 - inject_Z (Z.of_nat i)) (seq 0 22)).

(** Four closes for the worked values. *)
Definition sample_closes : Pandas.series := [Some 10; Some 11; Some 10; Some 12].

(** A position filed under its own market whose entry price is its cost
    per unit. *)
Definition at_cost (market : string) (pos : Position.t) : Prop :=
  Position.market pos = market /\
  Position.entry_price pos * Position.quantity pos == Position.amount_krw pos.

Definition ledger_inv (pf : Portfolio.t) : Prop :=
  well_formed pf /\
  forall m pos, Dict.get m (Portfolio.positions pf) = Some pos -> at_cost m pos.

(** The ledgers a program can build: a fresh one, then any calls of [buy]
    and [sell] (a call that raises leaves the ledger it had reached). *)
Inductive reachable : Portfolio.t -> Prop :=
| reach_init (initial_krw : Q) : reachable (Portfolio.init initial_krw)
| reach_buy now pf market amount price :
    reachable pf -> reachable (fst (Portfolio.buy now pf market amount price))
| reach_sell now pf market price :
    reachable pf -> reachable (fst (Portfolio.sell now pf market price)).

(** The crossover events between two consecutive rows of the live frame,
    as [check_ma_crossover] documents them. *)
Definition golden_cross (prev curr : MarketData.Row) : Prop :=
  exists ps pl cs cl,
    MarketData.ma_short prev = Some ps /\ MarketData.ma_long prev = Some pl /\
    MarketData.ma_short curr = Some cs /\ MarketData.ma_long curr = Some cl /\
    ps < pl /\ cl <= cs.

Definition dead_cross (prev curr : MarketData.Row) : Prop :=
  exists ps pl cs cl,
    MarketData.ma_short prev = Some ps /\ MarketData.ma_long prev = Some pl /\
    MarketData.ma_short curr = Some cs /\ MarketData.ma_long curr = Some cl /\
    pl < ps /\ cs <= cl.

(** The growth factor of a list of round trips: the product of their
    exit price over entry price. *)
Definition growth (trades : list Backtest.Trade) : Q :=
  fold_left
    (fun acc t => acc * (Backtest.t_exit_price t / Backtest.t_entry_price t))
    trades 1.

(** The books of the backtest loop balance: flat, the cash is the capital
    compounded over the trades so far and is the last equity point (the
    capital itself before any bar); in a position, the cost of the position
    is that compounded capital. *)
Definition accounted (capital : Q) (st : Backtest.State) : Prop :=
  (Backtest.position st == 0 ->
   Backtest.cash st == capital * growth (Backtest.trades st) /\
   last (Backtest.equity st) capital == Backtest.cash st) /\
  (0 < Backtest.position st ->
   Backtest.position st * Backtest.entry_price st
   == capital * growth (Backtest.trades st)).



(** * Properties *)

(** ** Boolean tests and their propositions *)

Lemma Qltb_lt (a b : Q) : Qltb a b = true <-> a < b.
Proof.
  unfold Qltb. rewrite negb_true_iff.
  split; intro H.
  - apply Qnot_le_lt. intro L. apply Qle_bool_iff in L. congruence.
  - destruct (Qle_bool b a) eqn:E; [|reflexivity].
    apply Qle_bool_iff in E. exfalso. apply (Qlt_not_le _ _ H E).
Qed.

Lemma Qltb_ge (a b : Q) : Qltb a b = false <-> b <= a.
Proof.
  unfold Qltb. rewrite negb_false_iff. apply Qle_bool_iff.
Qed.

Lemma Qleb_le (a b : Q) : Qleb a b = true <-> a <= b.
Proof. apply Qle_bool_iff. Qed.

Lemma Qleb_gt (a b : Q) : Qleb a b = false <-> b < a.
Proof.
  unfold Qleb. split; intro H.
  - apply Qnot_le_lt. intro L. apply Qle_bool_iff in L. congruence.
  - destruct (Qle_bool a b) eqn:E; [|reflexivity].
    apply Qle_bool_iff in E. exfalso. apply (Qlt_not_le _ _ H E).
Qed.

Lemma Qeq_bool_false (a b : Q) : Qeq_bool a b = false <-> ~ a == b.
Proof.
  split; intro H.
  - intro E. apply Qeq_bool_iff in E. congruence.
  - destruct (Qeq_bool a b) eqn:E; [|reflexivity].
    apply Qeq_bool_iff in E. contradiction.
Qed.

(** ** The dict *)

Section DictFacts.
Context {V : Type}.
Implicit Types (d : Dict.t V) (k : string) (v : V).

Lemma get_set_same k v d : Dict.get k (Dict.set k v d) = Some v.
Proof.
  induction d as [|[k' v'] d IH]; simpl.
  - now rewrite String.eqb_refl.
  - destruct (String.eqb k k') eqn:E; simpl; rewrite E; auto.
Qed.

Lemma get_set_other k k' v d :
  k <> k' -> Dict.get k' (Dict.set k v d) = Dict.get k' d.
Proof.
  intro N. induction d as [|[k0 v0] d IH]; simpl.
  - destruct (String.eqb k' k) eqn:E; auto.
    apply String.eqb_eq in E. congruence.
  - destruct (String.eqb k k0) eqn:E; simpl.
    + apply String.eqb_eq in E. subst k0.
      destruct (String.eqb k' k) eqn:E'; auto.
      apply String.eqb_eq in E'. congruence.
    + now rewrite IH.
Qed.

Lemma get_none_not_in k d : ~ In k (map fst d) -> Dict.get k d = None.
Proof.
  induction d as [|[k0 v0] d IH]; simpl; intro N; auto.
  destruct (String.eqb k k0) eqn:E.
  - apply String.eqb_eq in E. subst. exfalso. apply N. now left.
  - apply IH. intro I. apply N. now right.
Qed.

Lemma get_del_same k d :
  Dict.keys_unique d -> Dict.get k (Dict.del k d) = None.
Proof.
  unfold Dict.keys_unique.
  induction d as [|[k' v'] d IH]; simpl; intro U; auto.
  inversion U as [|? ? Hnotin U']; subst.
  destruct (String.eqb k k') eqn:E; simpl.
  - apply String.eqb_eq in E. subst k'. now apply get_none_not_in.
  - rewrite E. now apply IH.
Qed.

Lemma get_del_other k k' d :
  k <> k' -> Dict.get k' (Dict.del k d) = Dict.get k' d.
Proof.
  intro N. induction d as [|[k0 v0] d IH]; simpl; auto.
  destruct (String.eqb k k0) eqn:E; simpl.
  - apply String.eqb_eq in E. subst k0.
    destruct (String.eqb k' k) eqn:E'; auto.
    apply String.eqb_eq in E'. congruence.
  - now rewrite IH.
Qed.

Lemma keys_set k v d :
  map fst (Dict.set k v d) =
  if Dict.mem k d then map fst d else (map fst d ++ [k])%list.
Proof.
  unfold Dict.mem. induction d as [|[k0 v0] d IH]; simpl; auto.
  destruct (String.eqb k k0) eqn:E; simpl; auto.
  rewrite IH. now destruct (Dict.get k d).
Qed.

Lemma get_some_in k v d : Dict.get k d = Some v -> In k (map fst d).
Proof.
  induction d as [|[k0 v0] d IH]; simpl; [discriminate|].
  destruct (String.eqb k k0) eqn:E.
  - apply String.eqb_eq in E. auto.
  - auto.
Qed.

Lemma get_not_in_none k d : Dict.get k d = None -> ~ In k (map fst d).
Proof.
  induction d as [|[k0 v0] d IH]; simpl; auto.
  destruct (String.eqb k k0) eqn:E; [discriminate|].
  intros G [H|H]; [|now apply IH].
  subst. rewrite String.eqb_refl in E. discriminate.
Qed.

Lemma keys_unique_set k v d :
  Dict.keys_unique d -> Dict.keys_unique (Dict.set k v d).
Proof.
  unfold Dict.keys_unique. intro U. rewrite keys_set. unfold Dict.mem.
  destruct (Dict.get k d) eqn:G; auto.
  apply NoDup_app; auto.
  - constructor; [intros []|constructor].
  - intros x Hx [Hk|[]]. subst x. now apply get_not_in_none in G.
Qed.

Lemma keys_del_incl k d x : In x (map fst (Dict.del k d)) -> In x (map fst d).
Proof.
  induction d as [|[k0 v0] d IH]; simpl; auto.
  destruct (String.eqb k k0); simpl; intuition.
Qed.

Lemma keys_unique_del k d :
  Dict.keys_unique d -> Dict.keys_unique (Dict.del k d).
Proof.
  unfold Dict.keys_unique.
  induction d as [|[k0 v0] d IH]; simpl; intro U; auto.
  inversion U as [|? ? Hnotin U']; subst.
  destruct (String.eqb k k0); simpl; auto.
  constructor; auto. intro I. apply Hnotin. eapply keys_del_incl; eauto.
Qed.
End DictFacts.

(** ** The ledger *)

Section Ledger.
Import Portfolio.

Lemma init_well_formed c : well_formed (init c).
Proof. constructor. Qed.

Lemma buy_well_formed now pf market amount price :
  well_formed pf -> well_formed (fst (buy now pf market amount price)).
Proof.
  unfold well_formed, buy. intro U.
  destruct (Qltb _ _); simpl; auto.
  destruct (Qeq_bool price 0); simpl; auto.
  destruct (Dict.get market (positions pf)); simpl.
  - destruct (Qeq_bool _ 0); simpl; auto using keys_unique_set.
  - auto using keys_unique_set.
Qed.

Lemma sell_well_formed now pf market price :
  well_formed pf -> well_formed (fst (sell now pf market price)).
Proof.
  unfold well_formed, sell. intro U.
  destruct (Dict.get market (positions pf)); simpl; auto.
  destruct (Qeq_bool _ 0); simpl; auto using keys_unique_del.
Qed.

(** The guard of [buy] compares the cash with the amount alone. *)
Lemma buy_rejected now pf market amount price :
  cash_krw pf < amount -> buy now pf market amount price = (pf, ReturnFalse).
Proof.
  intro H. unfold buy. apply Qltb_lt in H. now rewrite H.
Qed.


(** An accepted [buy] pays the amount and the fee; the cash left can be
    negative, by no more than the fee. *)
Lemma buy_accepted_cash now pf market amount price pf' :
  buy now pf market amount price = (pf', ReturnTrue) ->
  cash_krw pf' = cash_krw pf - (amount + amount * fee_rate) /\
  amount <= cash_krw pf /\
  - (amount * fee_rate) <= cash_krw pf'.
Proof.
  unfold buy.
  destruct (Qltb (cash_krw pf) amount) eqn:G; [discriminate|].
  apply Qltb_ge in G.
  destruct (Qeq_bool price 0); [discriminate|].
  assert (C : - (amount * fee_rate)
              <= cash_krw pf - (amount + amount * fee_rate)) by lra.
  destruct (Dict.get market (positions pf)).
  - destruct (Qeq_bool _ 0); [discriminate|].
    intro E. inversion E; subst; simpl. auto.
  - intro E. inversion E; subst; simpl. auto.
Qed.

(** C1 (failing input): on a ledger of 1,000,000 KRW, buying for
    1,000,000 KRW needs 1,000,500 KRW with the fee; [buy] accepts the
    order, and the cash left is -500 KRW. *)
Theorem buy_overdraws_by_the_fee :
  let pf := init 1000000 in
  let r := buy 0 pf "KRW-BTC" 1000000 50000000 in
  cash_krw pf < 1000000 + 1000000 * fee_rate /\
  snd r = ReturnTrue /\
  cash_krw (fst r) == - (500) /\
  cash_krw (fst r) < 0.
Proof.
  cbv zeta. split; [|split; [|split]].
  - vm_compute. reflexivity.
  - vm_compute. reflexivity.
  - vm_compute. reflexivity.
  - vm_compute. reflexivity.
Qed.

(** C4: selling an open position credits the cash with the proceeds
    [quantity * price] less the 0.05% fee, appends a sell record whose
    profit is the net proceeds minus the invested amount, and removes the
    position, leaving the other positions as they were.  The call returns
    [True], unless the invested amount is zero, where the closing report
    divides by it. *)
Theorem sell_settles_position now pf market pos price :
  well_formed pf ->
  Dict.get market (positions pf) = Some pos ->
  let proceeds := Position.quantity pos * price in
  let fee := proceeds * (5 # 10000) in
  let net_proceeds := proceeds - fee in
  let profit := net_proceeds - Position.amount_krw pos in
  let pf' := fst (sell now pf market price) in
  cash_krw pf' = cash_krw pf + net_proceeds /\
  trade_history pf' =
    (trade_history pf ++ [SellRecord now market price net_proceeds profit])%list /\
  Dict.get market (positions pf') = None /\
  (forall m, m <> market ->
     Dict.get m (positions pf') = Dict.get m (positions pf)) /\
  snd (sell now pf market price) =
    (if Qeq_bool (Position.amount_krw pos) 0
     then RaiseZeroDivision else ReturnTrue).
Proof.
  intros U G. unfold sell. rewrite G. cbv zeta.
  destruct (Qeq_bool (Position.amount_krw pos) 0); simpl;
    (repeat split; auto using get_del_same;
     intros m N; now apply get_del_other).
Qed.

Lemma sell_settles_position_witness :
  let pos := Position.mk "KRW-ETH" 300000 3000000 (1 # 10) 0 in
  let pf := mk 700000 [("KRW-ETH"%string, pos)] [] in
  cash_krw (fst (sell 1 pf "KRW-ETH" 3300000)) == 1029835 /\
  Dict.get "KRW-ETH" (positions (fst (sell 1 pf "KRW-ETH" 3300000))) = None /\
  snd (sell 1 pf "KRW-ETH" 3300000) = ReturnTrue.
Proof.
  cbv zeta.
  pose proof (sell_settles_position 1
    (mk 700000
       [("KRW-ETH"%string, Position.mk "KRW-ETH" 300000 3000000 (1 # 10) 0)] [])
    "KRW-ETH" (Position.mk "KRW-ETH" 300000 3000000 (1 # 10) 0) 3300000) as H.
  cbv zeta in H.
  destruct H as (Hc & _ & Hp & _ & Ho).
  - unfold well_formed, Dict.keys_unique. simpl.
    constructor; [intros []|constructor].
  - reflexivity.
  - split; [|split].
    + rewrite Hc. vm_compute. reflexivity.
    + exact Hp.
    + rewrite Ho. reflexivity.
Defined.
End Ledger.

Section AverageCost.
Import Portfolio.

(** C5: two accepted buys in a row into a market that held no position,
    [a1] at [p1] then [a2] at [p2], leave a position of quantity
    [a1/p1 + a2/p2], invested amount [a1 + a2] and average entry price
    [(a1 + a2) / (a1/p1 + a2/p2)]. *)
Theorem two_buys_average_cost now1 now2 pf market a1 p1 a2 p2 pf1 pf2 :
  0 < p1 -> 0 < p2 ->
  Dict.get market (positions pf) = None ->
  buy now1 pf market a1 p1 = (pf1, ReturnTrue) ->
  buy now2 pf1 market a2 p2 = (pf2, ReturnTrue) ->
  exists pos,
    Dict.get market (positions pf2) = Some pos /\
    Position.entry_price pos == (a1 + a2) / (a1 / p1 + a2 / p2) /\
    Position.quantity pos == a1 / p1 + a2 / p2 /\
    Position.amount_krw pos == a1 + a2.
Proof.
  intros P1 P2 G B1 B2.
  unfold buy in B1. rewrite G in B1.
  destruct (Qltb (cash_krw pf) a1); [discriminate|].
  destruct (Qeq_bool p1 0); [discriminate|].
  inversion B1; subst pf1; clear B1.
  unfold buy in B2. cbn [positions cash_krw trade_history] in B2.
  rewrite get_set_same in B2.
  cbn [Position.quantity Position.amount_krw Position.market
       Position.entry_time] in B2.
  destruct (Qltb _ a2); [discriminate|].
  destruct (Qeq_bool p2 0); [discriminate|].
  destruct (Qeq_bool (a1 / p1 + a2 / p2) 0); [discriminate|].
  inversion B2; subst pf2; clear B2.
  eexists. cbn [positions]. split.
  - apply get_set_same.
  - cbn. repeat split; reflexivity.
Qed.

Lemma two_buys_average_cost_witness :
  let pf := init 1000000 in
  let pf1 := fst (buy 1 pf "KRW-BTC" 100000 100) in
  let pf2 := fst (buy 2 pf1 "KRW-BTC" 100000 50) in
  exists pos,
    Dict.get "KRW-BTC" (positions pf2) = Some pos /\
    Position.entry_price pos == (100000 + 100000) / (100000 / 100 + 100000 / 50) /\
    Position.quantity pos == 100000 / 100 + 100000 / 50 /\
    Position.amount_krw pos == 100000 + 100000.
Proof.
  cbv zeta.
  apply (two_buys_average_cost 1 2 (init 1000000) "KRW-BTC"
           100000 100 100000 50
           (fst (buy 1 (init 1000000) "KRW-BTC" 100000 100))).
  - reflexivity.
  - reflexivity.
  - reflexivity.
  - vm_compute. reflexivity.
  - vm_compute. reflexivity.
Defined.
End AverageCost.

Section Returns.
Import Portfolio.

Lemma returns_fold_sums prices l ti tc pd :
  let '(ti', tc', _) := fold_left (returns_step prices) l (ti, tc, pd) in
  ti' = fold_left Qplus (map (fun item => Position.amount_krw (snd item)) l) ti /\
  tc' = fold_left Qplus
          (map (fun item =>
                  Position.current_value (snd item)
                    (price_of prices (fst item) (snd item))) l) tc.
Proof.
  revert ti tc pd. induction l as [|[m pos] l IH]; intros ti tc pd.
  - simpl. auto.
  - simpl. apply IH.
Qed.

(** C10: the [total_pnl_krw] of the snapshot is the value of the open
    positions minus their invested amounts; neither it nor
    [total_pnl_pct] depends on the cash or on the trade history, so past
    realized results and fees do not enter them; with no open position
    both are 0. *)
Theorem total_pnl_is_unrealized_only pf prices :
  let r := calculate_returns pf prices in
  total_pnl_krw r =
    positions_value prices (positions pf) - invested (positions pf) /\
  total_pnl_pct r =
    (if Qltb 0 (invested (positions pf))
     then total_pnl_krw r / invested (positions pf) * 100 else 0) /\
  (forall cash' history',
     let r' := calculate_returns (mk cash' (positions pf) history') prices in
     total_pnl_krw r' = total_pnl_krw r /\
     total_pnl_pct r' = total_pnl_pct r) /\
  (positions pf = [] -> total_pnl_krw r == 0 /\ total_pnl_pct r == 0).
Proof.
  cbv zeta. unfold calculate_returns, positions_value, invested, Qsum.
  cbn [positions cash_krw trade_history].
  pose proof (returns_fold_sums prices (positions pf) 0 0 []) as F.
  destruct (fold_left (returns_step prices) (positions pf) (0, 0, []))
    as [[ti tc] pd].
  destruct F as [-> ->]. cbn [total_pnl_krw total_pnl_pct].
  repeat split; auto.
  - rewrite H. reflexivity.
  - rewrite H. reflexivity.
Qed.
End Returns.

(** ** Crossover flags and the signal *)

Section Crossover.
Import Pandas.

Lemma Qltb_asym a b : Qltb a b = true -> Qltb b a = false.
Proof.
  intro H. apply Qltb_lt in H. apply Qltb_ge. now apply Qlt_le_weak.
Qed.

Lemma gt_lt_exclusive (x y : option Q) : gt x y && lt x y = false.
Proof.
  destruct x as [x|], y as [y|]; simpl; auto.
  destruct (Qltb y x) eqn:E; simpl; auto. now apply Qltb_asym.
Qed.

Lemma in_combine_zip_andb (A B C D : list bool) g d :
  In (g, d) (combine (zip_with andb A B) (zip_with andb C D)) ->
  exists a b c d',
    g = a && b /\ d = c && d' /\ In (b, d') (combine B D).
Proof.
  revert B C D.
  induction A as [|a A IH]; intros [|b B] [|c C] [|d' D]; simpl;
    try contradiction.
  intros [E|I].
  - inversion E; subst. exists a, b, c, d'. auto.
  - destruct (IH _ _ _ I) as (a0 & b0 & c0 & d0 & ? & ? & ?).
    exists a0, b0, c0, d0. auto.
Qed.

Lemma in_combine_gt_lt (X Y : series) b d :
  In (b, d) (combine (zip_with gt X Y) (zip_with lt X Y)) -> b && d = false.
Proof.
  revert Y. induction X as [|x X IH]; intros [|y Y]; simpl; try contradiction.
  intros [E|I].
  - inversion E; subst. apply gt_lt_exclusive.
  - eauto.
Qed.

Lemma make_rows_flags df r s l G D row :
  In row (Backtest.make_rows df r s l G D) ->
  In (Backtest.golden row, Backtest.dead row) (combine G D).
Proof.
  revert r s l G D.
  induction df as [|b df IH];
    intros [|r0 r] [|s0 s] [|l0 l] [|g0 G] [|d0 D]; simpl;
    try contradiction.
  intros [E|I].
  - subst row. simpl. now left.
  - right. eauto.
Qed.

(** C6: a golden cross and a dead cross are never flagged together, by
    [check_ma_crossover] on any frame, and on any row of the frame
    [add_indicators] computes. *)
Theorem golden_dead_exclusive :
  (forall df : list MarketData.Row,
     fst (Strategy.check_ma_crossover df) &&
     snd (Strategy.check_ma_crossover df) = false) /\
  (forall (candles : list Backtest.Bar) (row : Backtest.Row),
     In row (Backtest.add_indicators candles) ->
     Backtest.golden row && Backtest.dead row = false).
Proof.
  split.
  - intro df. unfold Strategy.check_ma_crossover.
    destruct (rev df) as [|curr [|prev rest]]; auto.
    destruct (MarketData.ma_short prev) as [ps|]; auto.
    destruct (MarketData.ma_long prev) as [pl|]; auto.
    destruct (MarketData.ma_short curr) as [cs|]; auto.
    destruct (MarketData.ma_long curr) as [cl|]; auto.
    simpl.
    destruct (Qltb ps pl) eqn:E; simpl; auto.
    rewrite (Qltb_asym _ _ E). simpl. apply andb_false_r.
  - intros candles row I. unfold Backtest.add_indicators in I.
    apply make_rows_flags in I.
    apply in_combine_zip_andb in I.
    destruct I as (a & b & c & d' & -> & -> & I).
    apply in_combine_gt_lt in I.
    destruct b, d'; try discriminate; simpl;
      rewrite ?andb_false_r; auto.
Qed.

(** C9: on a frame of fewer than two rows [generate_signal] answers HOLD,
    with the reason "data insufficient" and no indicator value. *)
Theorem short_frame_holds (df : list MarketData.Row) (market : string) :
  (List.length df < 2)%nat ->
  Strategy.generate_signal df market =
  Strategy.mkSignal market Strategy.HOLD None None None None "데이터 부족".
Proof.
  intro H. unfold Strategy.generate_signal.
  apply Nat.ltb_lt in H. now rewrite H.
Qed.

Lemma short_frame_holds_witness :
  let row :=
    MarketData.mkRow (MarketData.mkCandle 0 100 110 90 105 12) None None None in
  Strategy.signal (Strategy.generate_signal [row] "KRW-XRP") = Strategy.HOLD /\
  Strategy.s_close (Strategy.generate_signal [row] "KRW-XRP") = None.
Proof.
  cbv zeta.
  rewrite (short_frame_holds
             [MarketData.mkRow (MarketData.mkCandle 0 100 110 90 105 12)
                None None None] "KRW-XRP").
  - split; reflexivity.
  - simpl. lia.
Defined.
End Crossover.

(** ** Maximum drawdown *)

Section Drawdown.
Import Pandas Backtest.

Lemma maximum_ge_l a b : a <= maximum a b.
Proof.
  unfold maximum. destruct (Qltb a b) eqn:E.
  - apply Qltb_lt in E. now apply Qlt_le_weak.
  - apply Qle_refl.
Qed.

Lemma maximum_ge_r a b : b <= maximum a b.
Proof.
  unfold maximum. destruct (Qltb a b) eqn:E.
  - apply Qle_refl.
  - now apply Qltb_ge in E.
Qed.

Lemma maximum_of_le a b : a <= b -> maximum a b == b.
Proof.
  intro H. unfold maximum. destruct (Qltb a b) eqn:E.
  - reflexivity.
  - apply Qltb_ge in E. now apply Qle_antisym.
Qed.

Lemma minimum_le_l a b : minimum a b <= a.
Proof.
  unfold minimum. destruct (Qltb b a) eqn:E.
  - apply Qltb_lt in E. now apply Qlt_le_weak.
  - apply Qle_refl.
Qed.

Lemma array_min_le x l : array_min x l <= x.
Proof.
  unfold array_min. revert x. induction l as [|y l IH]; intro x; simpl.
  - apply Qle_refl.
  - eapply Qle_trans; [apply IH|apply minimum_le_l].
Qed.

Lemma array_min_zero x l :
  x == 0 -> Forall (fun d => d == 0) l -> array_min x l == 0.
Proof.
  unfold array_min. revert x.
  induction l as [|y l IH]; intros x Hx Hl; simpl; auto.
  inversion Hl; subst. apply IH; auto.
  unfold minimum. now destruct (Qltb y x).
Qed.

(** One drawdown value: the peak is positive and not below the equity. *)
Lemma drawdown_value e p :
  0 < p -> e <= p ->
  exists d,
    lift2 Qmult (div (Some (e - p)) (Some p)) (Some 100) = Some d /\
    d <= 0 /\ (e == p -> d == 0).
Proof.
  intros Hp He. unfold div.
  assert (N : Qeq_bool p 0 = false).
  { apply Qeq_bool_false. intro E. rewrite E in Hp. now apply Qlt_irrefl in Hp. }
  rewrite N. simpl. eexists. split; [reflexivity|]. split.
  - assert (T : (e - p) / p <= 0).
    { apply Qle_shift_div_r; auto. lra. }
    lra.
  - intro E. assert (Z0 : e - p == 0) by lra.
    rewrite Z0. unfold Qdiv. ring.
Qed.

Lemma drawdowns_from peak l :
  0 < peak -> Forall (fun e => 0 < e) l ->
  exists ds,
    observations
      (zip_with (fun e p => lift2 Qmult (div (Some (e - p)) (Some p)) (Some 100))
         l (accumulate_from peak l)) = Some ds /\
    Forall (fun d => d <= 0) ds /\
    (nondecreasing (peak :: l) -> Forall (fun d => d == 0) ds).
Proof.
  revert peak. induction l as [|x l IH]; intros peak Hp Hl.
  - exists []. simpl. auto.
  - inversion Hl as [|? ? Hx Hl']; subst.
    cbn [accumulate_from zip_with].
    assert (Hm : 0 < maximum peak x).
    { eapply Qlt_le_trans; [exact Hp|apply maximum_ge_l]. }
    destruct (drawdown_value x (maximum peak x) Hm (maximum_ge_r peak x))
      as (d & Ed & Hd & Hz).
    destruct (IH (maximum peak x) Hm Hl') as (ds & Eds & Hds & Hzs).
    rewrite Ed. cbn [observations]. rewrite Eds. exists (d :: ds).
    split; [reflexivity|]. split; [constructor; auto|].
    intros [Hpx Hnd]. constructor.
    + apply Hz. symmetry. now apply maximum_of_le.
    + apply Hzs. destruct l as [|y l]; simpl; auto.
      destruct Hnd as [Hxy Hnd]. split; auto.
      rewrite (maximum_of_le _ _ Hpx). exact Hxy.
Qed.

(** On positive values no peak is zero: the drawdown is defined. *)
Lemma max_drawdown_defined (equity : list Q) :
  Forall (fun e => 0 < e) equity ->
  exists mdd, max_drawdown equity = Some mdd.
Proof.
  intro Hpos. unfold max_drawdown, drawdowns.
  destruct equity as [|x l]; [now exists 0|].
  inversion Hpos as [|? ? Hx Hl]; subst.
  cbn [maximum_accumulate zip_with].
  destruct (drawdown_value x x Hx (Qle_refl x)) as (d & Ed & _).
  destruct (drawdowns_from x l Hx Hl) as (ds & Eds & _).
  rewrite Ed. cbn [observations]. rewrite Eds. now exists (array_min d ds).
Qed.

(** C8: on an equity curve of positive values the maximum drawdown is
    defined and at most 0; it is 0 on the empty curve and on every curve
    that never falls. *)
Theorem max_drawdown_nonpositive (equity : list Q) :
  Forall (fun e => 0 < e) equity ->
  exists mdd,
    max_drawdown equity = Some mdd /\
    mdd <= 0 /\
    (equity = [] -> mdd == 0) /\
    (nondecreasing equity -> mdd == 0).
Proof.
  intro Hpos. unfold max_drawdown, drawdowns.
  destruct equity as [|x l].
  - exists 0. simpl. repeat split; auto; apply Qle_refl || reflexivity.
  - inversion Hpos as [|? ? Hx Hl]; subst.
    cbn [maximum_accumulate zip_with].
    destruct (drawdown_value x x Hx (Qle_refl x)) as (d & Ed & Hd & Hz).
    destruct (drawdowns_from x l Hx Hl) as (ds & Eds & Hds & Hzs).
    rewrite Ed. cbn [observations]. rewrite Eds. exists (array_min d ds).
    split; [reflexivity|]. split; [|split].
    + eapply Qle_trans; [apply array_min_le|exact Hd].
    + discriminate.
    + intro Hnd. apply array_min_zero.
      * apply Hz. reflexivity.
      * apply Hzs. exact Hnd.
Qed.

Lemma max_drawdown_nonpositive_witness :
  exists mdd,
    max_drawdown [1000000; 1100000; 990000; 1200000] = Some mdd /\ mdd <= 0.
Proof.
  destruct (max_drawdown_nonpositive [1000000; 1100000; 990000; 1200000])
    as (mdd & E & H & _).
  - repeat constructor.
  - exists mdd. split; assumption.
Defined.
End Drawdown.

(** ** Series operations *)

Section SeriesFacts.
Import Pandas.

Lemma length_zip_with {A B C} (f : A -> B -> C) l1 l2 :
  List.length (zip_with f l1 l2) = Nat.min (List.length l1) (List.length l2).
Proof.
  revert l2. induction l1 as [|a l1 IH]; intros [|b l2]; simpl; auto.
Qed.

Lemma nth_error_zip_with {A B C} (f : A -> B -> C) l1 l2 i :
  nth_error (zip_with f l1 l2) i =
  match nth_error l1 i, nth_error l2 i with
  | Some a, Some b => Some (f a b)
  | _, _ => None
  end.
Proof.
  revert l2 i. induction l1 as [|a l1 IH]; intros [|b l2] [|i]; simpl; auto.
  - now destruct (nth_error l1 i).
Qed.

Lemma Forall_skipn {A} (P : A -> Prop) n l : Forall P l -> Forall P (skipn n l).
Proof.
  revert l. induction n as [|n IH]; intros [|a l] H; simpl; auto.
  inversion H; auto.
Qed.

Lemma Forall_firstn {A} (P : A -> Prop) n l : Forall P l -> Forall P (firstn n l).
Proof.
  revert l. induction n as [|n IH]; intros [|a l] H; simpl; auto.
  inversion H; auto.
Qed.

Lemma length_shift1 s : List.length (shift1 s) = List.length s.
Proof.
  destruct s as [|a s]; auto.
  unfold shift1. cbn [List.length]. f_equal.
  revert a. induction s as [|b s IH]; intro a; auto.
  change (removelast (a :: b :: s)) with (a :: removelast (b :: s)).
  cbn [List.length]. now rewrite IH.
Qed.

Lemma length_diff s : List.length (diff s) = List.length s.
Proof.
  unfold diff. rewrite length_zip_with, length_shift1. apply Nat.min_id.
Qed.

Lemma length_rolling_mean w s :
  List.length (rolling_mean w s) = List.length s.
Proof. unfold rolling_mean. now rewrite length_map, length_seq. Qed.

Lemma nth_error_rolling_mean w s i :
  (i < List.length s)%nat ->
  nth_error (rolling_mean w s) i = Some (window_mean w (firstn (S i) s)).
Proof.
  intro H. unfold rolling_mean.
  rewrite nth_error_map, nth_error_seq.
  apply Nat.ltb_lt in H. now rewrite H.
Qed.

Lemma Qsum_from_nonneg l acc :
  0 <= acc -> Forall (fun x => 0 <= x) l -> 0 <= fold_left Qplus l acc.
Proof.
  revert acc. induction l as [|x l IH]; intros acc Ha Hl; simpl; auto.
  inversion Hl; subst. apply IH; auto. lra.
Qed.

Lemma observations_nonneg l xs :
  nonneg_series l -> observations l = Some xs -> Forall (fun x => 0 <= x) xs.
Proof.
  revert xs. induction l as [|[x|] l IH]; intros xs Hl E; simpl in E.
  - inversion E. constructor.
  - inversion Hl; subst.
    destruct (observations l) as [ys|]; [|discriminate].
    inversion E; subst. constructor; auto.
  - discriminate.
Qed.

Lemma nat_Q_pos (w : nat) : (w <> 0)%nat -> 0 < inject_Z (Z.of_nat w).
Proof.
  intro H. change 0 with (inject_Z 0). rewrite <- Zlt_Qlt. lia.
Qed.

Lemma window_mean_nonneg w pre m :
  nonneg_series pre -> window_mean w pre = Some m -> 0 <= m.
Proof.
  intros Hp. unfold window_mean.
  destruct (w =? 0)%nat eqn:W; [discriminate|].
  destruct (List.length pre <? w)%nat; [discriminate|].
  destruct (observations _) as [xs|] eqn:O; [|discriminate].
  intro E. inversion E; subst.
  apply Nat.eqb_neq in W.
  apply Qle_shift_div_l; [now apply nat_Q_pos|].
  rewrite Qmult_0_l. apply Qsum_from_nonneg; [apply Qle_refl|].
  eapply observations_nonneg; [|exact O].
  now apply Forall_skipn.
Qed.

(** A window that reaches back to a NaN at index 0 has no mean. *)
Lemma window_mean_warmup w s i :
  (i < w)%nat -> (i < List.length s)%nat -> nth_error s 0 = Some None ->
  window_mean w (firstn (S i) s) = None.
Proof.
  intros Hi Hl H0. unfold window_mean.
  destruct (w =? 0)%nat; auto.
  rewrite length_firstn, (Nat.min_l (S i)) by lia.
  destruct (S i <? w)%nat eqn:L; auto.
  apply Nat.ltb_ge in L. assert (w = S i) by lia. subst w.
  rewrite Nat.sub_diag. simpl skipn.
  destruct s as [|v s]; [discriminate|]. simpl in H0. inversion H0; subst.
  reflexivity.
Qed.

Lemma rolling_mean_nonneg w s :
  nonneg_series s -> nonneg_series (rolling_mean w s).
Proof.
  intro H. unfold nonneg_series, rolling_mean.
  apply Forall_map. apply Forall_forall. intros i _ x E.
  eapply window_mean_nonneg; [|exact E]. now apply Forall_firstn.
Qed.

Lemma clip_lower_nonneg s : nonneg_series (clip_lower 0 s).
Proof.
  unfold nonneg_series, clip_lower. apply Forall_map, Forall_forall.
  intros [v|] _ x E; simpl in E; inversion E; subst.
  destruct (Qltb v 0) eqn:L; [apply Qle_refl|now apply Qltb_ge in L].
Qed.

Lemma neg_clip_upper_nonneg s : nonneg_series (neg (clip_upper 0 s)).
Proof.
  unfold nonneg_series, neg, clip_upper.
  apply Forall_map, Forall_map, Forall_forall.
  intros [v|] _ x E; simpl in E; inversion E; subst.
  destruct (Qltb 0 v) eqn:L.
  - apply Qle_refl.
  - apply Qltb_ge in L. lra.
Qed.

Lemma nth_error_0_map_none {A} (f : option A -> option A) (s : list (option A)) :
  f None = None -> nth_error s 0 = Some None ->
  nth_error (map f s) 0 = Some None.
Proof.
  intros Hf H. destruct s as [|v s]; [discriminate|].
  simpl in *. inversion H; subst. now rewrite Hf.
Qed.

Lemma diff_nth0 s : s <> [] -> nth_error (diff s) 0 = Some None.
Proof.
  destruct s as [|a s]; [congruence|]. intros _. simpl. now destruct a.
Qed.
End SeriesFacts.

(** ** RSI *)

Section RsiFacts.
Import Pandas.

(** The RSI of one bar, from an average gain and an average loss that are
    not negative. *)
Lemma rsi_point (g l : option Q) (r : Q) :
  (forall x, g = Some x -> 0 <= x) ->
  (forall y, l = Some y -> 0 <= y) ->
  lift2 Qminus (Some 100)
    (div (Some 100)
       (lift2 Qplus (Some 1)
          (div g (match l with
                  | Some x => if Qeq_bool x 0 then None else Some x
                  | None => None
                  end)))) = Some r ->
  0 <= r <= 100 /\ g <> None.
Proof.
  intros Hg Hl.
  destruct g as [x|]; [|discriminate].
  destruct l as [y|]; [|discriminate].
  specialize (Hg x eq_refl). specialize (Hl y eq_refl).
  destruct (Qeq_bool y 0) eqn:Y; [discriminate|].
  apply Qeq_bool_false in Y.
  cbn [div]. apply Qeq_bool_false in Y. rewrite Y.
  apply Qeq_bool_false in Y.
  assert (Ypos : 0 < y).
  { destruct (Qlt_le_dec 0 y) as [|L]; auto.
    exfalso. apply Y. now apply Qle_antisym. }
  assert (RS : 0 <= x / y).
  { apply Qle_shift_div_l; auto. now rewrite Qmult_0_l. }
  cbn [lift2 div].
  destruct (Qeq_bool (1 + x / y) 0) eqn:D; [discriminate|].
  cbn [lift2]. intro E. inversion E; subst r; clear E.
  assert (P : 0 < 1 + x / y) by lra.
  assert (U : 100 / (1 + x / y) <= 100).
  { apply Qle_shift_div_r; auto. nra. }
  assert (L : 0 <= 100 / (1 + x / y)).
  { apply Qle_shift_div_l; auto. lra. }
  split; [lra|discriminate].
Qed.

(** The RSI series computed from two series of averages. *)
Lemma rsi_series (G L : series) i r :
  nonneg_series G -> nonneg_series L ->
  nth_error (rsi_of_rs (zip_with div G (replace_zero_nan L))) i = Some (Some r) ->
  0 <= r <= 100 /\ exists g, nth_error G i = Some (Some g).
Proof.
  intros HG HL. unfold rsi_of_rs, replace_zero_nan.
  rewrite nth_error_map, nth_error_zip_with, nth_error_map.
  destruct (nth_error G i) as [g|] eqn:EG; [|discriminate].
  destruct (nth_error L i) as [l|] eqn:EL; [|discriminate].
  cbn [option_map]. intro E. inversion E as [E']; clear E.
  apply rsi_point in E'.
  - destruct E' as [B N]. split; auto.
    destruct g as [g|]; [now exists g|congruence].
  - apply nth_error_In in EG.
    unfold nonneg_series in HG. rewrite Forall_forall in HG.
    intros x Ex. exact (HG g EG x Ex).
  - apply nth_error_In in EL.
    unfold nonneg_series in HL. rewrite Forall_forall in HL.
    intros y Ey. exact (HL l EL y Ey).
Qed.

(** Where the average gain is NaN, so is the RSI. *)
Lemma rsi_series_nan (G L : series) i :
  List.length L = List.length G ->
  nth_error G i = Some None ->
  nth_error (rsi_of_rs (zip_with div G (replace_zero_nan L))) i = Some None.
Proof.
  intros HLen EG. unfold rsi_of_rs, replace_zero_nan.
  rewrite nth_error_map, nth_error_zip_with, nth_error_map, EG.
  destruct (nth_error L i) eqn:EL; auto.
  exfalso. apply nth_error_None in EL.
  assert (nth_error G i <> None) as N by congruence.
  apply nth_error_Some in N. lia.
Qed.

Lemma length_rsi_series (G L : series) :
  List.length L = List.length G ->
  List.length (rsi_of_rs (zip_with div G (replace_zero_nan L))) = List.length G.
Proof.
  intro H. unfold rsi_of_rs, replace_zero_nan.
  rewrite length_map, length_zip_with, length_map, H. apply Nat.min_id.
Qed.

(** [calc_rsi]: bounded where defined, NaN on the first [period] rows. *)
Lemma calc_rsi_spec (closes : series) (period : nat) :
  List.length (Backtest.calc_rsi closes period) = List.length closes /\
  (forall i r, nth_error (Backtest.calc_rsi closes period) i = Some (Some r) ->
     0 <= r <= 100) /\
  (forall i, (i < period)%nat -> (i < List.length closes)%nat ->
     nth_error (Backtest.calc_rsi closes period) i = Some None).
Proof.
  unfold Backtest.calc_rsi. cbv zeta.
  set (delta := diff closes).
  assert (LG : forall s, List.length s = List.length closes ->
                         List.length (rolling_mean period s) = List.length closes).
  { intros s Hs. now rewrite length_rolling_mean. }
  assert (Lg : List.length (clip_lower 0 delta) = List.length closes).
  { unfold clip_lower, delta. now rewrite length_map, length_diff. }
  assert (Ll : List.length (neg (clip_upper 0 delta)) = List.length closes).
  { unfold neg, clip_upper, delta. now rewrite !length_map, length_diff. }
  split; [|split].
  - rewrite length_rsi_series; rewrite !length_rolling_mean; congruence.
  - intros i r E. apply rsi_series in E; [tauto| |].
    + apply rolling_mean_nonneg, clip_lower_nonneg.
    + apply rolling_mean_nonneg, neg_clip_upper_nonneg.
  - intros i Hi Hl. apply rsi_series_nan.
    + rewrite !length_rolling_mean. congruence.
    + rewrite nth_error_rolling_mean by lia. f_equal.
      apply window_mean_warmup; auto; [lia|].
      unfold clip_lower. apply nth_error_0_map_none; auto.
      apply diff_nth0. intro N. subst closes. simpl in Hl. lia.
Qed.
End RsiFacts.

Section EwmFacts.
Import Pandas.

Lemma ewm_step_ok alpha st cur :
  0 <= 1 - alpha -> (forall c, cur = Some c -> 0 <= c) ->
  ewm_ok st -> ewm_ok (ewm_step alpha st cur).
Proof.
  intros Ha Hc [Ho Hw]. unfold ewm_step, ewm_ok.
  destruct (weighted st) as [w|] eqn:W.
  - specialize (Hw w eq_refl).
    assert (Ho' : 0 <= old_wt st * (1 - alpha))
      by now apply Qmult_le_0_compat.
    destruct cur as [c|]; cbn [old_wt weighted].
    + specialize (Hc c eq_refl). split; [lra|].
      intros w' E. inversion E; subst w'; clear E.
      destruct (Qeq_bool w c); auto.
      apply Qle_shift_div_l; [lra|]. rewrite Qmult_0_l.
      assert (0 <= old_wt st * (1 - alpha) * w)
        by now apply Qmult_le_0_compat.
      lra.
    + split; auto. intros w' E. now inversion E; subst.
  - destruct cur as [c|]; cbn [old_wt weighted];
      (split; [exact Ho|]); intros w' E; inversion E; subst; auto.
Qed.

Lemma ewm_step_nobs alpha st cur :
  (nobs (ewm_step alpha st cur) <= S (nobs st))%nat.
Proof.
  unfold ewm_step.
  destruct (weighted st), cur; cbn [nobs is_observation]; lia.
Qed.

Lemma length_ewm_loop alpha minp st vals :
  List.length (ewm_loop alpha minp st vals) = List.length vals.
Proof.
  revert st. induction vals as [|cur vals IH]; intro st; simpl; auto.
Qed.

Lemma ewm_loop_spec alpha minp vals :
  0 <= 1 - alpha -> nonneg_series vals ->
  forall st i v,
    ewm_ok st ->
    nth_error (ewm_loop alpha minp st vals) i = Some (Some v) ->
    0 <= v /\ (minp <= nobs st + S i)%nat.
Proof.
  intros Ha. induction vals as [|cur vals IH]; intros Hv st i v Hst E.
  - destruct i; discriminate.
  - inversion Hv as [|? ? Hcur Hv']; subst.
    pose proof (ewm_step_ok alpha st cur Ha Hcur Hst) as Hst'.
    pose proof (ewm_step_nobs alpha st cur) as Hn.
    destruct i as [|i]; simpl in E.
    + inversion E as [E']; clear E. unfold ewm_output in E'.
      destruct (minp <=? nobs (ewm_step alpha st cur))%nat eqn:M;
        [|discriminate].
      apply Nat.leb_le in M. split; [|lia].
      now apply (proj2 Hst').
    + destruct (IH Hv' _ _ _ Hst' E) as [B N]. split; auto. lia.
Qed.

Lemma alpha_le_1 com : 0 <= com -> 0 <= 1 - 1 / (1 + com).
Proof.
  intro H. assert (1 / (1 + com) <= 1).
  { apply Qle_shift_div_r; lra. }
  lra.
Qed.

(** [ewm(...).mean()] of a non-negative series that starts with a NaN. *)
Lemma ewm_mean_spec com min_periods vals s :
  nonneg_series vals ->
  ewm_mean com min_periods vals = Some s ->
  List.length s = List.length vals /\
  nonneg_series s /\
  (nth_error vals 0 = Some None ->
   forall i v, nth_error s i = Some (Some v) -> (min_periods <= i)%nat).
Proof.
  intros Hv. unfold ewm_mean.
  destruct (Qltb com 0) eqn:C; [discriminate|]. apply Qltb_ge in C.
  pose proof (alpha_le_1 com C) as Ha.
  destruct vals as [|v0 rest].
  - intro E. inversion E; subst. repeat split; auto. discriminate.
  - intro E. inversion E; subst s; clear E.
    inversion Hv as [|? ? Hv0 Hrest]; subst.
    set (st0 := mkEwm v0 1 (is_observation v0)).
    assert (Hst0 : ewm_ok st0).
    { split; simpl; [lra|exact Hv0]. }
    split; [|split].
    + simpl. now rewrite length_ewm_loop.
    + constructor.
      * intros x E. unfold ewm_output in E.
        destruct (_ <=? _)%nat; [|discriminate]. now apply Hv0.
      * apply Forall_forall. intros o Ho x ->.
        apply In_nth_error in Ho. destruct Ho as [i Ei].
        now destruct (ewm_loop_spec _ _ _ Ha Hrest _ _ _ Hst0 Ei).
    + cbn [nth_error]. intros E0 i v E. inversion E0; subst v0.
      destruct i as [|i].
      * simpl in E. unfold ewm_output in E. cbn [nobs st0 is_observation] in E.
        destruct (Nat.max min_periods 1) eqn:M; [lia|]. discriminate.
      * simpl in E.
        destruct (ewm_loop_spec _ _ _ Ha Hrest _ _ _ Hst0 E) as [_ N].
        cbn [nobs st0 is_observation] in N. lia.
Qed.

Lemma ewm_mean_defined com min_periods vals :
  0 <= com -> exists s, ewm_mean com min_periods vals = Some s.
Proof.
  intro H. unfold ewm_mean. apply Qltb_ge in H. rewrite H.
  destruct vals; eauto.
Qed.
End EwmFacts.

Section RsiTheorem.
Import Pandas.

Lemma ewm_mean_raises com min_periods vals :
  ewm_mean com min_periods vals = None -> com < 0.
Proof.
  unfold ewm_mean. destruct (Qltb com 0) eqn:C.
  - intros _. now apply Qltb_lt.
  - destruct vals; discriminate.
Qed.

Lemma com_negative period :
  inject_Z (Z.of_nat period) - 1 < 0 -> period = 0%nat.
Proof.
  intro H. assert (L : inject_Z (Z.of_nat period) < inject_Z 1).
  { change (inject_Z 1) with 1. lra. }
  rewrite <- Zlt_Qlt in L. lia.
Qed.

(** C7: the RSI is in [0, 100] wherever it is defined and is NaN on each
    of the first [period] rows, for the rolling-mean [calc_rsi] of the
    backtest and for the Wilder [calculate_rsi] of the live path, which
    returns a series for every [period >= 1]. *)
Theorem rsi_bounded_after_warmup (closes : series) (period : nat) :
  (List.length (Backtest.calc_rsi closes period) = List.length closes /\
   (forall i r,
      nth_error (Backtest.calc_rsi closes period) i = Some (Some r) ->
      0 <= r <= 100) /\
   (forall i, (i < period)%nat -> (i < List.length closes)%nat ->
      nth_error (Backtest.calc_rsi closes period) i = Some None)) /\
  match MarketData.calculate_rsi closes period with
  | Some rsi =>
      List.length rsi = List.length closes /\
      (forall i r, nth_error rsi i = Some (Some r) -> 0 <= r <= 100) /\
      (forall i, (i < period)%nat -> (i < List.length closes)%nat ->
         nth_error rsi i = Some None)
  | None => period = 0%nat
  end.
Proof.
  split; [apply calc_rsi_spec|].
  unfold MarketData.calculate_rsi. cbv zeta.
  set (com := inject_Z (Z.of_nat period) - 1).
  set (gain := clip_lower 0 (diff closes)).
  set (loss := neg (clip_upper 0 (diff closes))).
  assert (Lg : List.length gain = List.length closes).
  { unfold gain, clip_lower. now rewrite length_map, length_diff. }
  assert (Ll : List.length loss = List.length closes).
  { unfold loss, neg, clip_upper. now rewrite !length_map, length_diff. }
  destruct (ewm_mean com period gain) as [avg_gain|] eqn:EG;
    [|apply com_negative; eapply ewm_mean_raises; exact EG].
  destruct (ewm_mean com period loss) as [avg_loss|] eqn:EL;
    [|apply com_negative; eapply ewm_mean_raises; exact EL].
  apply ewm_mean_spec in EG; [|apply clip_lower_nonneg].
  apply ewm_mean_spec in EL; [|apply neg_clip_upper_nonneg].
  destruct EG as (LenG & NG & WG). destruct EL as (LenL & NL & _).
  split; [|split].
  - rewrite length_rsi_series; congruence.
  - intros i r E. apply rsi_series in E; tauto.
  - intros i Hi Hl. apply rsi_series_nan; [congruence|].
    destruct (nth_error avg_gain i) as [[g|]|] eqn:E; auto.
    + exfalso. apply WG in E; [lia|].
      unfold gain, clip_lower. apply nth_error_0_map_none; auto.
      apply diff_nth0. intro N. subst closes. simpl in Hl. lia.
    + exfalso. apply nth_error_None in E. lia.
Qed.
End RsiTheorem.

(** ** The backtest *)

Section BacktestFacts.
Import Pandas Backtest.

Lemma nth_error_make_rows df r s l G D i row :
  nth_error (make_rows df r s l G D) i = Some row ->
  nth_error df i = Some (bar row) /\
  nth_error r i = Some (rsi row) /\
  nth_error s i = Some (ma5 row) /\
  nth_error l i = Some (ma20 row) /\
  nth_error G i = Some (golden row) /\
  nth_error D i = Some (dead row).
Proof.
  revert r s l G D i.
  induction df as [|b df IH];
    intros [|r0 r] [|s0 s] [|l0 l] [|g0 G] [|d0 D] [|i]; simpl;
    try discriminate.
  - intro E. inversion E; subst. simpl. repeat split.
  - apply IH.
Qed.

Lemma nth_error_removelast {A} (l : list A) j v :
  nth_error (removelast l) j = Some v -> nth_error l j = Some v.
Proof.
  revert j. induction l as [|a l IH]; intro j.
  - destruct j; discriminate.
  - destruct l as [|b l]; [destruct j; discriminate|].
    change (removelast (a :: b :: l)) with (a :: removelast (b :: l)).
    destruct j as [|j]; [auto|apply IH].
Qed.

Lemma nth_error_shift1 (s : series) i v :
  nth_error (shift1 s) i = Some v ->
  match i with
  | O => v = None
  | S j => nth_error s j = Some v
  end.
Proof.
  destruct s as [|a s]; [destruct i; discriminate|].
  unfold shift1. destruct i as [|j].
  - simpl. congruence.
  - change (nth_error (None :: removelast (a :: s)) (S j))
      with (nth_error (removelast (a :: s)) j).
    apply nth_error_removelast.
Qed.

(** The [dead] column is a transition of the two averages from the row
    before: [False] on the first row, and on a later row true exactly when
    [ma5 >= ma20] held on the row before and [ma5 < ma20] holds on it. *)
Lemma dead_flag_is_transition candles i row :
  nth_error (add_indicators candles) i = Some row ->
  match i with
  | O => dead row = false
  | S j =>
      exists prev,
        nth_error (add_indicators candles) j = Some prev /\
        dead row = ge (ma5 prev) (ma20 prev) && lt (ma5 row) (ma20 row)
  end.
Proof.
  intro E. pose proof E as E0. unfold add_indicators in E. cbv zeta in E.
  apply nth_error_make_rows in E.
  destruct E as (_ & _ & E5 & E20 & _ & ED).
  rewrite nth_error_zip_with in ED.
  rewrite !nth_error_zip_with in ED. rewrite E5, E20 in ED.
  destruct (nth_error (shift1 _) i) as [p5|] eqn:S5; [|discriminate].
  destruct (nth_error (shift1 (rolling_mean MA_LONG _)) i) as [p20|] eqn:S20;
    [|discriminate].
  inversion ED as [ED']; clear ED.
  apply nth_error_shift1 in S5. apply nth_error_shift1 in S20.
  destruct i as [|j].
  - subst p5. reflexivity.
  - destruct (nth_error (add_indicators candles) j) as [prev|] eqn:EP.
    + exists prev. split; auto.
      unfold add_indicators in EP. cbv zeta in EP.
      apply nth_error_make_rows in EP.
      destruct EP as (_ & _ & P5 & P20 & _).
      congruence.
    + exfalso. apply nth_error_None in EP.
      assert (N : nth_error (add_indicators candles) (S j) <> None)
        by congruence.
      apply nth_error_Some in N. lia.
Qed.

Lemma sell_reason_cases :
  sell_reason true false = "RSI 과매수"%string /\
  sell_reason false true = "데드크로스"%string /\
  sell_reason true true = "RSI 과매수 + 데드크로스"%string.
Proof. repeat split. Qed.

(** The exit branch of the loop. *)
Lemma decide_open st row r :
  0 < position st -> rsi row = Some r -> ~ entry_price st == 0 ->
  exists st',
    decide st row = Some st' /\
    (Qltb RSI_OVERBOUGHT r || dead row = true ->
       exited st row st' (sell_reason (Qltb RSI_OVERBOUGHT r) (dead row))) /\
    (Qltb RSI_OVERBOUGHT r || dead row = false -> st' = st).
Proof.
  intros Hp Hr He. unfold decide. rewrite Hr.
  assert (P0 : Qeq_bool (position st) 0 = false).
  { apply Qeq_bool_false. intro E. rewrite E in Hp. now apply Qlt_irrefl in Hp. }
  rewrite P0. apply Qltb_lt in Hp. rewrite Hp.
  apply Qeq_bool_false in He. rewrite He.
  cbn [andb notna gt cmp2].
  destruct (Qltb RSI_OVERBOUGHT r || dead row) eqn:C.
  - eexists. split; [reflexivity|]. split; [|discriminate].
    intros _. unfold exited. cbn [position cash trades].
    split; [reflexivity|]. split; [reflexivity|].
    eexists. split; [reflexivity|]. cbn. auto.
  - exists st. split; [reflexivity|]. split; [discriminate|auto].
Qed.
End BacktestFacts.

Section ExitRule.
Import Pandas Backtest.

(** C2 (as the code has it): at a bar of the indicator frame where a
    position, entered at a non-zero price, is open and the RSI is defined,
    the position is exited in full at the bar's close exactly when
    [rsi > RSI_OVERBOUGHT] or the bar's [dead] flag is set; the flag is the
    transition of the two averages ([ma5 >= ma20] on the bar before,
    [ma5 < ma20] on this one, never on the first bar), and the reason of
    the trade names the conditions that held. *)
Theorem exit_iff_overbought_or_dead_flag candles i row st r :
  nth_error (add_indicators candles) i = Some row ->
  0 < position st -> rsi row = Some r -> ~ entry_price st == 0 ->
  let crossed :=
    match i with
    | O => false
    | S j =>
        match nth_error (add_indicators candles) j with
        | Some prev => ge (ma5 prev) (ma20 prev) && lt (ma5 row) (ma20 row)
        | None => false
        end
    end in
  exists st',
    decide st row = Some st' /\
    dead row = crossed /\
    (RSI_OVERBOUGHT < r \/ crossed = true ->
     exited st row st'
       (if Qltb RSI_OVERBOUGHT r
        then if crossed then "RSI 과매수 + 데드크로스" else "RSI 과매수"
        else "데드크로스")) /\
    (~ (RSI_OVERBOUGHT < r \/ crossed = true) ->
     st' = st /\ 0 < position st').
Proof.
  intros E Hp Hr He crossed.
  assert (D : dead row = crossed).
  { apply dead_flag_is_transition in E. subst crossed.
    destruct i as [|j]; auto.
    destruct E as (prev & -> & E). exact E. }
  destruct (decide_open st row r Hp Hr He) as (st' & Ed & Hexit & Hstay).
  exists st'. split; [exact Ed|]. split; [exact D|]. rewrite <- D.
  split.
  - intros C.
    assert (B : Qltb RSI_OVERBOUGHT r || dead row = true).
    { destruct C as [C|C].
      - apply Qltb_lt in C. now rewrite C.
      - rewrite C. apply orb_true_r. }
    specialize (Hexit B).
    destruct (Qltb RSI_OVERBOUGHT r), (dead row); try discriminate; exact Hexit.
  - intros C.
    assert (B : Qltb RSI_OVERBOUGHT r || dead row = false).
    { destruct (Qltb RSI_OVERBOUGHT r) eqn:R.
      - exfalso. apply C. left. now apply Qltb_lt.
      - destruct (dead row); auto. exfalso. apply C. now right. }
    rewrite (Hstay B). auto.
Qed.

Lemma exit_iff_overbought_or_dead_flag_witness :
  let row := nth 20 (add_indicators declining)
               (mkRow (mkBar 0 0 0 0 0 0) None None None false false) in
  let st := mkState 0 (1000000 / 111) 111 (Some 19%Z) [] [1000000] in
  dead row = false /\ lt (ma5 row) (ma20 row) = true /\
  decide st row = Some st.
Proof.
  cbv zeta.
  destruct (exit_iff_overbought_or_dead_flag declining 20
              (nth 20 (add_indicators declining)
                 (mkRow (mkBar 0 0 0 0 0 0) None None None false false))
              (mkState 0 (1000000 / 111) 111 (Some 19%Z) [] [1000000])
              (0 # 196))
    as (st' & Ed & D & _ & Hstay).
  - vm_compute. reflexivity.
  - vm_compute. reflexivity.
  - vm_compute. reflexivity.
  - vm_compute. discriminate.
  - split; [|split].
    + rewrite D. vm_compute. reflexivity.
    + vm_compute. reflexivity.
    + rewrite Ed. f_equal. apply Hstay.
      intros [C|C].
      * vm_compute in C. discriminate.
      * vm_compute in C. discriminate.
Defined.

(** C2 (counterexample to the level reading): on the falling series, the
    position bought on the first complete bar (index 19) is open at the
    next bar, whose RSI is defined and whose [ma5 = 112] is below
    [ma20 = 119.5]; the loop keeps the position. *)
Lemma level_dead_cross_does_not_exit :
  exists st row r s l,
    loop (initial_state 1000000)
         (firstn 1 (dropna (add_indicators declining))) = Some st /\
    nth_error (dropna (add_indicators declining)) 1 = Some row /\
    0 < position st /\
    rsi row = Some r /\ ma5 row = Some s /\ ma20 row = Some l /\ s < l /\
    decide st row = Some st.
Proof.
  do 5 eexists.
  split; [vm_compute; reflexivity|].
  split; [vm_compute; reflexivity|].
  split; [vm_compute; reflexivity|].
  split; [vm_compute; reflexivity|].
  split; [vm_compute; reflexivity|].
  split; [vm_compute; reflexivity|].
  split; [vm_compute; reflexivity|].
  vm_compute. reflexivity.
Qed.
End ExitRule.

Section EquityCurve.
Import Pandas Backtest.

Lemma pos_not_zero q : 0 < q -> Qeq_bool q 0 = false.
Proof.
  intro H. apply Qeq_bool_false. intro E. rewrite E in H.
  now apply Qlt_irrefl in H.
Qed.

Lemma div_pos a b : 0 < a -> 0 < b -> 0 < a / b.
Proof. intros Ha Hb. apply Qlt_shift_div_l; auto. lra. Qed.

Lemma mult_pos a b : 0 < a -> 0 < b -> 0 < a * b.
Proof. intros Ha Hb. nra. Qed.

(** One turn of the loop never divides by zero on a positive close, keeps
    the invariant and records one equity point. *)
Lemma step_inv st row :
  bt_inv st -> 0 < close (bar row) ->
  exists st',
    step st row = Some st' /\ bt_inv st' /\
    List.length (equity st') = S (List.length (equity st)).
Proof.
  intros [Hcore Heq] Hc. unfold step, decide.
  pose proof (pos_not_zero _ Hc) as C0.
  destruct Hcore as [[P0 Hcash]|(Ppos & Cz & Epos)].
  - (* flat *)
    assert (Z0 : Qeq_bool (position st) 0 = true) by now apply Qeq_bool_iff.
    assert (NP : Qltb 0 (position st) = false) by (apply Qltb_ge; lra).
    rewrite Z0, NP. cbn [andb].
    destruct (notna (rsi row) && lt (rsi row) (Some RSI_OVERSOLD)) eqn:B.
    + rewrite C0. eexists. split; [reflexivity|].
      unfold bt_inv; cbn [cash position entry_price equity]. split.
      * split.
        -- right. split; [now apply div_pos|split; [reflexivity|exact Hc]].
        -- apply Forall_app. split; auto. constructor; auto.
           assert (0 < cash st / close (bar row)) by now apply div_pos.
           pose proof (mult_pos _ _ H Hc). lra.
      * rewrite length_app. simpl. lia.
    + eexists. split; [reflexivity|].
      unfold bt_inv; cbn [cash position entry_price equity]. split.
      * split; [left; auto|].
        apply Forall_app. split; auto. constructor; auto.
        rewrite P0. lra.
      * rewrite length_app. simpl. lia.
  - (* open *)
    rewrite (pos_not_zero _ Ppos). cbn [andb].
    pose proof Ppos as PB. apply Qltb_lt in PB. rewrite PB. cbn [andb].
    pose proof (mult_pos _ _ Ppos Hc) as V.
    destruct (notna (rsi row)).
    + destruct (gt (rsi row) (Some RSI_OVERBOUGHT) || dead row).
      * rewrite (pos_not_zero _ Epos). eexists. split; [reflexivity|].
        unfold bt_inv; cbn [cash position entry_price equity]. split.
        -- split; [left; split; [reflexivity|exact V]|].
           apply Forall_app. split; auto. constructor; auto. lra.
        -- rewrite length_app. simpl. lia.
      * eexists. split; [reflexivity|].
        unfold bt_inv; cbn [cash position entry_price equity]. split.
        -- split; [right; auto|].
           apply Forall_app. split; auto. constructor; auto. lra.
        -- rewrite length_app. simpl. lia.
    + eexists. split; [reflexivity|].
      unfold bt_inv; cbn [cash position entry_price equity]. split.
      * split; [right; auto|].
        apply Forall_app. split; auto. constructor; auto. lra.
      * rewrite length_app. simpl. lia.
Qed.

Lemma loop_inv df st :
  bt_inv st -> Forall (fun row => 0 < close (bar row)) df ->
  exists st',
    loop st df = Some st' /\ bt_inv st' /\
    List.length (equity st') = (List.length (equity st) + List.length df)%nat.
Proof.
  revert st. induction df as [|row df IH]; intros st Hst Hdf.
  - exists st. simpl. split; [reflexivity|]. split; [exact Hst|lia].
  - inversion Hdf as [|? ? Hrow Hdf']; subst.
    destruct (step_inv st row Hst Hrow) as (st1 & E1 & I1 & L1).
    destruct (IH st1 I1 Hdf') as (st2 & E2 & I2 & L2).
    exists st2. simpl. rewrite E1. split; [exact E2|]. split; [exact I2|].
    rewrite L2, L1. simpl. lia.
Qed.

Lemma rows_from_candles candles row :
  In row (add_indicators candles) -> In (bar row) candles.
Proof.
  intro I. apply In_nth_error in I. destruct I as [i E].
  unfold add_indicators in E. apply nth_error_make_rows in E.
  destruct E as (E & _). eapply nth_error_In; eauto.
Qed.

Lemma length_make_rows_le df r s l G D :
  (List.length (make_rows df r s l G D) <= List.length df)%nat.
Proof.
  revert r s l G D.
  induction df as [|b df IH];
    intros [|r0 r] [|s0 s] [|l0 l] [|g0 G] [|d0 D]; simpl; try lia.
  specialize (IH r s l G D). lia.
Qed.

Lemma length_dropna_le candles :
  (List.length (dropna (add_indicators candles)) <= List.length candles)%nat.
Proof.
  unfold dropna.
  eapply Nat.le_trans; [apply filter_length_le|].
  apply length_make_rows_le.
Qed.
End EquityCurve.

Section EquityCount.
Import Pandas Backtest.

Lemma initial_inv capital : 0 < capital -> bt_inv (initial_state capital).
Proof.
  intro H. split; [left; split; [reflexivity|exact H]|constructor].
Qed.

Lemma summarize_done capital df st :
  0 < capital -> Forall (fun e => 0 < e) (equity st) ->
  exists r,
    summarize capital df st = Done r /\
    r_equity r = equity st /\ r_trades r = trades st /\
    r_df_len r = List.length df /\ r_final r = cash st.
Proof.
  intros Hc He. unfold summarize. rewrite (pos_not_zero _ Hc).
  destruct (max_drawdown_defined (equity st) He) as (mdd & ->).
  eexists. split; [reflexivity|]. cbn. auto.
Qed.

(** C3 (as the code has it): the rows on which [rsi], [ma5] or [ma20] is
    undefined are dropped before the loop; for positive closes and
    capital the run ends with a report whose equity curve has one point
    for each remaining row, and one more exactly when the position is
    still open after the last row and is liquidated, which adds one trade
    with the forced-liquidation reason. *)
Theorem equity_points_per_complete_row candles capital :
  candles <> [] ->
  Forall (fun b => 0 < close b) candles ->
  0 < capital ->
  let df := filter complete (add_indicators candles) in
  exists st r,
    loop (initial_state capital) df = Some st /\
    run_backtest candles capital = Done r /\
    (List.length df <= List.length candles)%nat /\
    r_df_len r = List.length df /\
    if Qltb 0 (position st) then
      List.length (r_equity r) = S (List.length df) /\
      exists t, r_trades r = (trades st ++ [t])%list /\
                t_reason t = "기간 종료 강제 청산"%string
    else
      List.length (r_equity r) = List.length df /\
      r_trades r = trades st.
Proof.
  intros Hne Hpos Hcap df.
  assert (Hdf : Forall (fun row => 0 < close (bar row)) df).
  { apply Forall_forall. intros row I. apply filter_In in I.
    destruct I as [I _]. apply rows_from_candles in I.
    rewrite Forall_forall in Hpos. now apply Hpos. }
  destruct (loop_inv df _ (initial_inv capital Hcap) Hdf)
    as (st & El & [Hcore Heq] & Len).
  cbn [equity initial_state List.length Nat.add] in Len.
  exists st.
  unfold run_backtest. destruct candles as [|b candles']; [congruence|].
  fold df. unfold dropna. fold df. rewrite El. unfold liquidate.
  destruct (Qltb 0 (position st)) eqn:PB.
  - apply Qltb_lt in PB.
    destruct (rev df) as [|last rest] eqn:R.
    + exfalso. assert (D : df = []).
      { rewrite <- (rev_involutive df), R. reflexivity. }
      rewrite D in El. simpl in El. inversion El; subst st.
      simpl in PB. now apply Qlt_irrefl in PB.
    + assert (Hlast : 0 < close (bar last)).
      { rewrite Forall_forall in Hdf. apply Hdf.
        apply in_rev. rewrite R. now left. }
      assert (Epos : 0 < entry_price st).
      { destruct Hcore as [[P0 _]|(_ & _ & E)]; auto.
        rewrite P0 in PB. now apply Qlt_irrefl in PB. }
      rewrite (pos_not_zero _ Epos).
      match goal with |- context [summarize capital df ?s] =>
        destruct (summarize_done capital df s Hcap) as (r & Er & Eq & Et & Ed & _)
      end.
      { cbn [equity]. apply Forall_app. split; auto.
        constructor; auto. now apply mult_pos. }
      exists r. split; [reflexivity|]. split; [exact Er|].
      split; [apply length_dropna_le|]. split; [exact Ed|].
      cbn [equity trades] in Eq, Et. split.
      * rewrite Eq, length_app, Len. simpl. lia.
      * eexists. split; [exact Et|]. reflexivity.
  - destruct (summarize_done capital df st Hcap Heq)
      as (r & Er & Eq & Et & Ed & _).
    exists r. split; [reflexivity|]. split; [exact Er|].
    split; [apply length_dropna_le|]. split; [exact Ed|].
    split; [now rewrite Eq|exact Et].
Qed.

Lemma equity_points_per_complete_row_witness :
  exists st r,
    loop (initial_state 1000000)
         (filter complete (add_indicators declining)) = Some st /\
    run_backtest declining 1000000 = Done r /\
    List.length (filter complete (add_indicators declining)) = 3%nat /\
    List.length (r_equity r) = 4%nat.
Proof.
  destruct (equity_points_per_complete_row declining 1000000)
    as (st & r & El & Er & _ & _ & H).
  - discriminate.
  - vm_compute. repeat constructor.
  - reflexivity.
  - exists st, r. split; [exact El|]. split; [exact Er|].
    assert (L : List.length (filter complete (add_indicators declining)) = 3%nat)
      by (vm_compute; reflexivity).
    split; [exact L|].
    assert (P : Qltb 0 (position st) = true).
    { pose proof El as El'. vm_compute in El'.
      injection El' as <-. reflexivity. }
    rewrite P in H. destruct H as [H _]. rewrite H, L. reflexivity.
Defined.

(** C3 (counterexample): of the 22 bars of the falling series only the
    last 3 have all of [rsi], [ma5] and [ma20]; the run records 3 equity
    points and a fourth at the forced liquidation, not 22 + 1. *)
Lemma dropped_bars_yield_no_equity_point :
  exists r t,
    run_backtest declining 1000000 = Done r /\
    List.length declining = 22%nat /\
    r_trades r = [t] /\ t_reason t = "기간 종료 강제 청산"%string /\
    List.length (r_equity r) = 4%nat /\
    List.length (r_equity r) <> S (List.length declining).
Proof.
  do 2 eexists.
  split; [vm_compute; reflexivity|].
  split; [vm_compute; reflexivity|].
  split; [vm_compute; reflexivity|].
  split; [vm_compute; reflexivity|].
  split; [vm_compute; reflexivity|].
  vm_compute. discriminate.
Qed.
End EquityCount.

(** ** Worked values *)

Section Examples.
Import Pandas.

(** Rolling RSI, period 2: gains [-, 1, 0, 2], losses [-, 0, 1, 0]. *)
Example calc_rsi_sample :
  map (option_map Qred) (Backtest.calc_rsi sample_closes 2) =
  [None; None; Some 50; Some (200 # 3)].
Proof. vm_compute. reflexivity. Qed.

(** Wilder RSI, period 2 ([alpha = 1/2]). *)
Example calculate_rsi_sample :
  option_map (map (option_map Qred)) (MarketData.calculate_rsi sample_closes 2) =
  Some [None; None; Some (100 # 3); Some (900 # 11)].
Proof. vm_compute. reflexivity. Qed.

Example calculate_rsi_period_0 :
  MarketData.calculate_rsi sample_closes 0 = None.
Proof. reflexivity. Qed.

(** An oversold RSI on a golden cross is a BUY. *)
Example generate_signal_buy :
  let c := MarketData.mkCandle 0 100 100 100 100 1 in
  let df := [MarketData.mkRow c (Some 28) (Some 9) (Some 10);
             MarketData.mkRow c (Some 25) (Some 11) (Some 10)] in
  Strategy.signal (Strategy.generate_signal df "KRW-BTC") = Strategy.BUY /\
  Strategy.reason (Strategy.generate_signal df "KRW-BTC") =
    "RSI=25.0 (과매도) + 골든크로스"%string.
Proof. vm_compute. split; reflexivity. Qed.

(** An exit on RSI alone, recorded with its reason. *)
Example decide_overbought :
  let row := Backtest.mkRow (Backtest.mkBar 7 120 120 120 120 1)
               (Some 75) (Some 118) (Some 110) false false in
  let st := Backtest.mkState 0 10 100 (Some 3%Z) [] [] in
  option_map Backtest.trades (Backtest.decide st row) =
  Some [Backtest.mkTrade (Some 3%Z) 7 100 120 (10 * 120 - 10 * 100)
          ((120 - 100) / 100 * 100) "RSI 과매수"].
Proof. vm_compute. reflexivity. Qed.
End Examples.

(** * Further properties *)

(** ** The ledger: no-ops, cost basis, round trips *)

Section LedgerMore.
Import Portfolio.

(** X1: a call of [buy] that does not return [True] (refused for lack of
    cash, or raising on a zero price or a zero total quantity) changes
    nothing in the ledger. *)
Theorem buy_failure_is_noop now pf market amount price :
  snd (buy now pf market amount price) <> ReturnTrue ->
  fst (buy now pf market amount price) = pf.
Proof.
  unfold buy.
  destruct (Qltb (cash_krw pf) amount); [reflexivity|].
  destruct (Qeq_bool price 0); [reflexivity|].
  destruct (Dict.get market (positions pf)) as [pos|].
  - destruct (Qeq_bool _ 0); [reflexivity|].
    cbn [snd]. intro N. now contradiction N.
  - cbn [snd]. intro N. now contradiction N.
Qed.

Lemma buy_failure_is_noop_witness :
  fst (buy 0 (init 1000) "KRW-BTC" 2000 50) = init 1000 /\
  fst (buy 0 (init 1000) "KRW-BTC" 500 0) = init 1000.
Proof.
  split.
  - apply (buy_failure_is_noop 0 (init 1000) "KRW-BTC" 2000 50).
    vm_compute. discriminate.
  - apply (buy_failure_is_noop 0 (init 1000) "KRW-BTC" 500 0).
    vm_compute. discriminate.
Defined.


Lemma field_cancel a p : ~ p == 0 -> p * (a / p) == a.
Proof. intro N. field. exact N. Qed.

Lemma div_mult_cancel a b : ~ b == 0 -> a / b * b == a.
Proof. intro N. field. exact N. Qed.

Lemma buy_keeps_inv now pf market amount price :
  ledger_inv pf -> ledger_inv (fst (buy now pf market amount price)).
Proof.
  intros [U I]. split; [now apply buy_well_formed|].
  unfold buy.
  destruct (Qltb (cash_krw pf) amount); [exact I|].
  destruct (Qeq_bool price 0) eqn:P0; [exact I|].
  apply Qeq_bool_false in P0.
  destruct (Dict.get market (positions pf)) as [pos|] eqn:G.
  - destruct (Qeq_bool (Position.quantity pos + amount / price) 0) eqn:T0;
      [exact I|].
    apply Qeq_bool_false in T0.
    cbn [fst positions]. intros m q Gq.
    destruct (String.eqb market m) eqn:E.
    + apply String.eqb_eq in E. subst m.
      rewrite get_set_same in Gq. inversion Gq; subst q; clear Gq.
      destruct (I market pos G) as [Hm _].
      split; cbn; [exact Hm|]. now apply div_mult_cancel.
    + apply String.eqb_neq in E. rewrite get_set_other in Gq by exact E.
      now apply I.
  - cbn [fst positions]. intros m q Gq.
    destruct (String.eqb market m) eqn:E.
    + apply String.eqb_eq in E. subst m.
      rewrite get_set_same in Gq. inversion Gq; subst q; clear Gq.
      split; cbn; [reflexivity|]. now apply field_cancel.
    + apply String.eqb_neq in E. rewrite get_set_other in Gq by exact E.
      now apply I.
Qed.

Lemma sell_keeps_inv now pf market price :
  ledger_inv pf -> ledger_inv (fst (sell now pf market price)).
Proof.
  intros [U I]. split; [now apply sell_well_formed|].
  unfold sell.
  destruct (Dict.get market (positions pf)) as [pos|] eqn:G; [|exact I].
  assert (K : forall m q,
            Dict.get m (Dict.del market (positions pf)) = Some q ->
            at_cost m q).
  { intros m q Gq. destruct (String.eqb market m) eqn:E.
    - apply String.eqb_eq in E. subst m.
      rewrite get_del_same in Gq by exact U. discriminate.
    - apply String.eqb_neq in E. rewrite get_del_other in Gq by exact E.
      now apply I. }
  destruct (Qeq_bool (Position.amount_krw pos) 0); exact K.
Qed.

Lemma reachable_inv pf : reachable pf -> ledger_inv pf.
Proof.
  intro R.
  induction R as [c|now pf market amount price R IH|now pf market price R IH].
  - split; [apply init_well_formed|]. intros m pos G. discriminate.
  - now apply buy_keeps_inv.
  - now apply sell_keeps_inv.
Qed.

(** X2: in every ledger built from a fresh one by calls of [buy] and
    [sell], the markets of the positions are distinct, each position is
    filed under its own market, and its entry price times its quantity is
    its invested amount, also after averaging in. *)
Theorem reachable_ledger_at_cost pf :
  reachable pf ->
  Dict.keys_unique (positions pf) /\
  forall m pos,
    Dict.get m (positions pf) = Some pos ->
    Position.market pos = m /\
    Position.entry_price pos * Position.quantity pos == Position.amount_krw pos.
Proof.
  intro R. destruct (reachable_inv pf R) as [U I]. split; [exact U|].
  intros m pos G. exact (I m pos G).
Qed.

Lemma reachable_ledger_at_cost_witness :
  let pf1 := fst (buy 1 (init 1000000) "KRW-BTC" 100000 100) in
  let pf2 := fst (buy 2 pf1 "KRW-BTC" 100000 50) in
  Dict.keys_unique (positions pf2).
Proof.
  cbv zeta.
  apply (reachable_ledger_at_cost
           (fst (buy 2 (fst (buy 1 (init 1000000) "KRW-BTC" 100000 100))
                   "KRW-BTC" 100000 50))).
  apply reach_buy. apply reach_buy. apply reach_init.
Defined.









(** X5: once a market was sold, a second [sell] of it is refused and
    changes nothing, whatever the prices. *)
Theorem second_sell_is_refused now1 now2 pf market price1 price2 :
  well_formed pf ->
  let pf1 := fst (sell now1 pf market price1) in
  sell now2 pf1 market price2 = (pf1, ReturnFalse).
Proof.
  intros U pf1.
  assert (G : Dict.get market (positions pf1) = None).
  { subst pf1. unfold sell.
    destruct (Dict.get market (positions pf)) as [pos|] eqn:G; [|exact G].
    destruct (Qeq_bool (Position.amount_krw pos) 0);
      cbn [fst positions]; now apply get_del_same. }
  unfold sell at 1. now rewrite G.
Qed.

Lemma second_sell_is_refused_witness :
  let pos := Position.mk "KRW-ETH" 300000 3000000 (1 # 10) 0 in
  let pf := mk 700000 [("KRW-ETH"%string, pos)] [] in
  snd (sell 2 (fst (sell 1 pf "KRW-ETH" 3300000)) "KRW-ETH" 3400000) =
  ReturnFalse.
Proof.
  cbv zeta.
  rewrite (second_sell_is_refused 1 2
             (mk 700000
                [("KRW-ETH"%string,
                  Position.mk "KRW-ETH" 300000 3000000 (1 # 10) 0)] [])
             "KRW-ETH" 3300000 3400000).
  - reflexivity.
  - unfold well_formed, Dict.keys_unique. simpl.
    constructor; [intros []|constructor].
Defined.



End LedgerMore.

(** ** The live signal *)

Section SignalMore.
Import Pandas MarketData Strategy.

Lemma rev_last_two {A} (front : list A) prev curr :
  rev (front ++ [prev; curr]) = curr :: prev :: rev front.
Proof. now rewrite rev_app_distr. Qed.

Lemma split_last_two {A} (l : list A) :
  (2 <= List.length l)%nat -> exists front prev curr, l = front ++ [prev; curr].
Proof.
  intro H. destruct (rev l) as [|curr [|prev rest]] eqn:R.
  - apply (f_equal (@List.length A)) in R. rewrite length_rev in R.
    simpl in R. lia.
  - apply (f_equal (@List.length A)) in R. rewrite length_rev in R.
    simpl in R. lia.
  - exists (rev rest), prev, curr.
    rewrite <- (rev_involutive l), R. simpl. now rewrite <- app_assoc.
Qed.

Lemma check_golden front prev curr :
  fst (check_ma_crossover (front ++ [prev; curr])) = true <->
  golden_cross prev curr.
Proof.
  unfold check_ma_crossover, golden_cross. rewrite rev_last_two.
  destruct (ma_short prev) as [ps|], (ma_long prev) as [pl|],
           (ma_short curr) as [cs|], (ma_long curr) as [cl|];
    cbn [fst];
    try (split; [discriminate|intros (? & ? & ? & ? & ? & ? & ? & ? & _);
                              discriminate]).
  rewrite andb_true_iff, Qltb_lt, Qleb_le. split.
  - intros [H1 H2]. exists ps, pl, cs, cl. auto 10.
  - intros (a & b & c & d & E1 & E2 & E3 & E4 & H1 & H2).
    inversion E1; inversion E2; inversion E3; inversion E4; subst. auto.
Qed.

Lemma check_dead front prev curr :
  snd (check_ma_crossover (front ++ [prev; curr])) = true <->
  dead_cross prev curr.
Proof.
  unfold check_ma_crossover, dead_cross. rewrite rev_last_two.
  destruct (ma_short prev) as [ps|], (ma_long prev) as [pl|],
           (ma_short curr) as [cs|], (ma_long curr) as [cl|];
    cbn [snd];
    try (split; [discriminate|intros (? & ? & ? & ? & ? & ? & ? & ? & _);
                              discriminate]).
  rewrite andb_true_iff, Qltb_lt, Qleb_le. split.
  - intros [H1 H2]. exists ps, pl, cs, cl. auto 10.
  - intros (a & b & c & d & E1 & E2 & E3 & E4 & H1 & H2).
    inversion E1; inversion E2; inversion E3; inversion E4; subst. auto.
Qed.

Lemma generate_signal_last_two front prev curr market :
  let df := front ++ [prev; curr] in
  let s := generate_signal df market in
  signal s =
    (if lt (rsi curr) (Some Config.RSI_OVERSOLD) && fst (check_ma_crossover df)
     then BUY
     else if gt (rsi curr) (Some Config.RSI_OVERBOUGHT)
             && snd (check_ma_crossover df)
          then SELL else HOLD) /\
  s_close s = Some (close (candle curr)) /\
  s_market s = market.
Proof.
  cbv zeta. unfold generate_signal.
  assert (L : (List.length (front ++ [prev; curr]) <? 2)%nat = false).
  { apply Nat.ltb_ge. rewrite length_app. simpl. lia. }
  rewrite L, rev_last_two.
  destruct (check_ma_crossover (front ++ [prev; curr])) as [g d].
  cbn [fst snd].
  destruct (lt (rsi curr) (Some Config.RSI_OVERSOLD) && g);
    [cbn; auto|].
  destruct (gt (rsi curr) (Some Config.RSI_OVERBOUGHT) && d); cbn; auto.
Qed.

Lemma lt_some v q : lt v (Some q) = true <-> exists r, v = Some r /\ r < q.
Proof.
  destruct v as [r|]; simpl.
  - rewrite Qltb_lt. split; [eauto|].
    intros (r' & E & H). now inversion E; subst.
  - split; [discriminate|]. intros (r & E & _). discriminate.
Qed.

Lemma gt_some v q : gt v (Some q) = true <-> exists r, v = Some r /\ q < r.
Proof.
  destruct v as [r|]; simpl.
  - rewrite Qltb_lt. split; [eauto|].
    intros (r' & E & H). now inversion E; subst.
  - split; [discriminate|]. intros (r & E & _). discriminate.
Qed.

(** X7: on a frame that ends with the rows [prev], [curr],
    [generate_signal] answers BUY exactly when the RSI of [curr] is
    defined and below [RSI_OVERSOLD] and the two rows make a golden cross;
    SELL exactly when it is above [RSI_OVERBOUGHT] and they make a dead
    cross; the signal carries the close of [curr] and the market. *)
Theorem signal_rules front prev curr market :
  let s := generate_signal (front ++ [prev; curr]) market in
  (signal s = BUY <->
     (exists r, rsi curr = Some r /\ r < Config.RSI_OVERSOLD) /\
     golden_cross prev curr) /\
  (signal s = SELL <->
     (exists r, rsi curr = Some r /\ Config.RSI_OVERBOUGHT < r) /\
     dead_cross prev curr) /\
  s_close s = Some (close (candle curr)) /\
  s_market s = market.
Proof.
  cbv zeta.
  destruct (generate_signal_last_two front prev curr market) as (S & C & M).
  cbv zeta in S, C, M. rewrite S. clear S.
  rewrite <- lt_some, <- gt_some, <- (check_golden front), <- (check_dead front).
  split; [|split; [|split; [exact C|exact M]]].
  - destruct (lt (rsi curr) (Some Config.RSI_OVERSOLD)),
             (fst (check_ma_crossover (front ++ [prev; curr])));
      cbn [andb];
      try destruct (gt (rsi curr) (Some Config.RSI_OVERBOUGHT)
                    && snd (check_ma_crossover (front ++ [prev; curr])));
      (split;
       [intro H; first [discriminate H|split; reflexivity]
       |intros [H1 H2];
        first [discriminate H1|discriminate H2|reflexivity]]).
  - destruct (lt (rsi curr) (Some Config.RSI_OVERSOLD)) eqn:B1,
             (fst (check_ma_crossover (front ++ [prev; curr])));
      cbn [andb].
    + split; [discriminate|]. intros [G _]. exfalso.
      apply lt_some in B1. apply gt_some in G.
      destruct B1 as (r & E & H), G as (r' & E' & H').
      rewrite E in E'. inversion E'; subst.
      unfold Config.RSI_OVERSOLD, Config.RSI_OVERBOUGHT in *. lra.
    + destruct (gt _ _), (snd _); cbn [andb];
        (split;
         [intro H; first [discriminate H|split; reflexivity]
         |intros [H1 H2];
          first [discriminate H1|discriminate H2|reflexivity]]).
    + destruct (gt _ _), (snd _); cbn [andb];
        (split;
         [intro H; first [discriminate H|split; reflexivity]
         |intros [H1 H2];
          first [discriminate H1|discriminate H2|reflexivity]]).
    + destruct (gt _ _), (snd _); cbn [andb];
        (split;
         [intro H; first [discriminate H|split; reflexivity]
         |intros [H1 H2];
          first [discriminate H1|discriminate H2|reflexivity]]).
Qed.

Lemma nth_error_live_rows df r s l i row :
  nth_error (MarketData.make_rows df r s l) i = Some row ->
  nth_error df i = Some (candle row) /\
  nth_error r i = Some (rsi row) /\
  nth_error s i = Some (ma_short row) /\
  nth_error l i = Some (ma_long row).
Proof.
  revert r s l i.
  induction df as [|c df IH]; intros [|r0 r] [|s0 s] [|l0 l] [|i]; simpl;
    try discriminate.
  - intro E. inversion E; subst. simpl. auto.
  - apply IH.
Qed.

Lemma calculate_rsi_defined closes period :
  (1 <= period)%nat -> exists rsi, calculate_rsi closes period = Some rsi.
Proof.
  intro H. unfold calculate_rsi. cbv zeta.
  assert (C : 0 <= inject_Z (Z.of_nat period) - 1).
  { assert (inject_Z 1 <= inject_Z (Z.of_nat period))
      by (rewrite <- Zle_Qle; lia).
    change (inject_Z 1) with 1 in *. lra. }
  destruct (ewm_mean_defined _ period
              (clip_lower 0 (diff closes)) C) as [g ->].
  destruct (ewm_mean_defined _ period
              (neg (clip_upper 0 (diff closes))) C) as [l ->].
  eauto.
Qed.

(** A window longer than the rows seen so far has no mean. *)
Lemma rolling_mean_short_window w s i v :
  (S i < w)%nat -> nth_error (rolling_mean w s) i = Some v -> v = None.
Proof.
  intros Hw E.
  assert (Hi : (i < List.length s)%nat).
  { rewrite <- (length_rolling_mean w). apply nth_error_Some. congruence. }
  rewrite nth_error_rolling_mean in E by exact Hi.
  assert (V : v = window_mean w (firstn (S i) s)) by congruence.
  subst v. clear E. unfold window_mean.
  destruct (w =? 0)%nat; auto.
  rewrite length_firstn.
  assert (L : (Nat.min (S i) (List.length s) <? w)%nat = true)
    by (apply Nat.ltb_lt; lia).
  now rewrite L.
Qed.

Lemma check_without_long_average front prev curr :
  ma_long prev = None ->
  check_ma_crossover (front ++ [prev; curr]) = (false, false).
Proof.
  intro H. unfold check_ma_crossover. rewrite rev_last_two, H.
  now destruct (ma_short prev).
Qed.

(** X8: the live path needs 21 candles before it can trade: on fewer,
    [get_market_data] still returns a frame, and the signal computed from
    it is HOLD, whatever the prices. *)
Theorem fewer_than_21_candles_hold candles market :
  (List.length candles < 21)%nat ->
  exists df,
    get_market_data candles = Some df /\
    signal (generate_signal df market) = HOLD.
Proof.
  intro H. unfold get_market_data.
  destruct (calculate_rsi_defined
              (map (fun c => Some (close c)) candles) Config.RSI_PERIOD)
    as [rsi ->]; [unfold Config.RSI_PERIOD; lia|].
  eexists. split; [reflexivity|].
  set (df := MarketData.make_rows candles rsi _ _).
  destruct (Nat.ltb (List.length df) 2) eqn:L.
  - unfold generate_signal. now rewrite L.
  - apply Nat.ltb_ge in L.
    destruct (split_last_two df L) as (front & prev & curr & E).
    assert (Ep : nth_error df (List.length front) = Some prev).
    { rewrite E, nth_error_app2, Nat.sub_diag by lia. reflexivity. }
    assert (Ec : nth_error df (S (List.length front)) = Some curr).
    { rewrite E, nth_error_app2 by lia.
      replace (S (List.length front) - List.length front)%nat with 1%nat
        by lia.
      reflexivity. }
    apply nth_error_live_rows in Ep. destruct Ep as (_ & _ & _ & El).
    apply nth_error_live_rows in Ec. destruct Ec as (Ecc & _).
    assert (B : (S (List.length front) < List.length candles)%nat).
    { apply nth_error_Some. congruence. }
    apply rolling_mean_short_window in El;
      [|unfold Config.MA_LONG; lia].
    rewrite E.
    destruct (generate_signal_last_two front prev curr market) as (S & _).
    cbv zeta in S. rewrite S.
    rewrite (check_without_long_average front prev curr) by congruence.
    cbn [fst snd]. now rewrite !andb_false_r.
Qed.

Lemma fewer_than_21_candles_hold_witness :
  exists df,
    get_market_data
      [mkCandle 0 100 110 90 105 12; mkCandle 1 105 120 100 118 9] = Some df /\
    signal (generate_signal df "KRW-XRP") = HOLD.
Proof.
  apply (fewer_than_21_candles_hold
           [mkCandle 0 100 110 90 105 12; mkCandle 1 105 120 100 118 9]
           "KRW-XRP").
  simpl. lia.
Defined.
End SignalMore.

(** ** The backtest: warm-up, short histories *)

Section BacktestWarmup.
Import Pandas Backtest.

Lemma in_firstn_nth {A} (l : list A) k x :
  In x (firstn k l) -> exists i, (i < k)%nat /\ nth_error l i = Some x.
Proof.
  revert l. induction k as [|k IH]; intros [|a l] I; simpl in I;
    try contradiction.
  destruct I as [->|I].
  - exists 0%nat. split; [lia|reflexivity].
  - destruct (IH l I) as (i & Hi & E). exists (S i). split; [lia|exact E].
Qed.

Lemma filter_none {A} (f : A -> bool) l :
  (forall x, In x l -> f x = false) -> filter f l = [].
Proof.
  induction l as [|a l IH]; intro H; simpl; auto.
  rewrite (H a) by (simpl; auto). apply IH. intros x I. apply H. now right.
Qed.

(** A row among the first 19 has no [ma20]. *)
Lemma early_row_incomplete candles i row :
  (i < 19)%nat -> nth_error (add_indicators candles) i = Some row ->
  complete row = false.
Proof.
  intros Hi E. unfold add_indicators in E. cbv zeta in E.
  apply nth_error_make_rows in E. destruct E as (_ & _ & _ & E20 & _).
  apply rolling_mean_short_window in E20; [|unfold MA_LONG; lia].
  unfold complete. rewrite E20. cbn [notna]. apply andb_false_r.
Qed.

Lemma complete_rows_bound candles :
  (List.length (dropna (add_indicators candles))
   <= List.length candles - 19)%nat.
Proof.
  unfold dropna. set (rows := add_indicators candles).
  rewrite <- (firstn_skipn 19 rows), filter_app.
  rewrite (filter_none complete (firstn 19 rows)).
  - cbn [app]. eapply Nat.le_trans; [apply filter_length_le|].
    rewrite length_skipn.
    pose proof (length_make_rows_le candles
                  (calc_rsi (map (fun b => Some (close b)) candles) RSI_PERIOD)
                  (rolling_mean MA_SHORT (map (fun b => Some (close b)) candles))
                  (rolling_mean MA_LONG (map (fun b => Some (close b)) candles))
                  (zip_with andb
                     (zip_with le
                        (shift1 (rolling_mean MA_SHORT
                                   (map (fun b => Some (close b)) candles)))
                        (shift1 (rolling_mean MA_LONG
                                   (map (fun b => Some (close b)) candles))))
                     (zip_with gt
                        (rolling_mean MA_SHORT
                           (map (fun b => Some (close b)) candles))
                        (rolling_mean MA_LONG
                           (map (fun b => Some (close b)) candles))))
                  (zip_with andb
                     (zip_with ge
                        (shift1 (rolling_mean MA_SHORT
                                   (map (fun b => Some (close b)) candles)))
                        (shift1 (rolling_mean MA_LONG
                                   (map (fun b => Some (close b)) candles))))
                     (zip_with lt
                        (rolling_mean MA_SHORT
                           (map (fun b => Some (close b)) candles))
                        (rolling_mean MA_LONG
                           (map (fun b => Some (close b)) candles))))) as L.
    fold (add_indicators candles) in L. fold rows in L. lia.
  - intros row I. apply in_firstn_nth in I. destruct I as (i & Hi & E).
    eapply early_row_incomplete; eauto.
Qed.

(** X9: the first 19 bars never reach the loop of the backtest, their
    20-day average being undefined: the frame the loop walks has at most
    [len(candles) - 19] rows, and so has the reported [df_len]. *)
Theorem loop_sees_at_most_all_but_19 candles capital r :
  run_backtest candles capital = Done r ->
  (r_df_len r <= List.length candles - 19)%nat /\
  (List.length (dropna (add_indicators candles))
   <= List.length candles - 19)%nat.
Proof.
  intro E. split; [|apply complete_rows_bound].
  pose proof (complete_rows_bound candles) as B.
  unfold run_backtest in E. destruct candles as [|b candles']; [discriminate|].
  remember (dropna (add_indicators (b :: candles'))) as df eqn:Edf.
  destruct (loop _ df) as [st|]; [|discriminate].
  destruct (liquidate st df) as [st'|]; [|discriminate].
  unfold summarize in E.
  destruct (Qeq_bool capital 0); [discriminate|].
  destruct (max_drawdown _); [|discriminate].
  injection E as <-. cbn [r_df_len]. exact B.
Qed.

Lemma loop_sees_at_most_all_but_19_witness :
  exists r,
    run_backtest declining 1000000 = Done r /\ (r_df_len r <= 22 - 19)%nat.
Proof.
  destruct (run_backtest declining 1000000) as [| |r] eqn:E;
    try (vm_compute in E; discriminate).
  exists r. split; [reflexivity|].
  apply (loop_sees_at_most_all_but_19 declining 1000000 r E).
Defined.

(** X10: on 1 to 19 candles the backtest trades nothing: it reports no
    trade, an empty equity curve, the capital as final capital, a return
    of 0, a drawdown of 0 and a win rate of 0 (a zero capital divides by
    zero instead). *)
Theorem short_history_trades_nothing candles capital :
  candles <> [] -> (List.length candles < 20)%nat -> ~ capital == 0 ->
  exists r,
    run_backtest candles capital = Done r /\
    r_trades r = [] /\ r_equity r = [] /\ r_n_trades r = 0%nat /\
    r_df_len r = 0%nat /\ r_final r = capital /\
    r_total_return r == 0 /\ r_mdd r = 0 /\ r_win_rate r = 0.
Proof.
  intros Hne Hlen Hc.
  assert (D : dropna (add_indicators candles) = []).
  { apply length_zero_iff_nil.
    pose proof (complete_rows_bound candles). lia. }
  unfold run_backtest. destruct candles as [|b candles']; [congruence|].
  rewrite D. cbn [loop]. unfold liquidate, initial_state.
  cbn [position]. change (Qltb 0 0) with false. cbv iota.
  unfold summarize. apply Qeq_bool_false in Hc. rewrite Hc.
  cbn [trades cash equity List.length Nat.eqb filter max_drawdown
       drawdowns maximum_accumulate zip_with observations].
  eexists. split; [reflexivity|]. cbn.
  repeat split; try reflexivity.
  unfold Qdiv. ring.
Qed.

Lemma short_history_trades_nothing_witness :
  exists r,
    run_backtest (bars_of_closes [100; 90; 80]) 1000000 = Done r /\
    r_trades r = [] /\ r_final r = 1000000.
Proof.
  destruct (short_history_trades_nothing (bars_of_closes [100; 90; 80]) 1000000)
    as (r & E & T & _ & _ & _ & F & _).
  - discriminate.
  - simpl. lia.
  - discriminate.
  - exists r. auto.
Defined.
End BacktestWarmup.

(** ** The indicators look at the past only *)

Section Causality.
Import Pandas Backtest.

Lemma zip_with_app {A B C} (f : A -> B -> C) a a' b b' :
  List.length a = List.length b ->
  zip_with f (a ++ a') (b ++ b') = zip_with f a b ++ zip_with f a' b'.
Proof.
  revert b. induction a as [|x a IH]; intros [|y b] H; simpl in *;
    try discriminate; auto.
  f_equal. apply IH. lia.
Qed.

Lemma shift1_app s t :
  s <> [] -> exists tail, shift1 (s ++ t) = shift1 s ++ tail.
Proof.
  intro N. destruct s as [|a s]; [congruence|].
  destruct t as [|b t].
  - exists []. now rewrite !app_nil_r.
  - exists (last (a :: s) None :: removelast (b :: t)).
    unfold shift1. cbn [app].
    change (a :: s ++ b :: t) with ((a :: s) ++ b :: t).
    rewrite removelast_app by discriminate.
    rewrite (app_removelast_last None (l := a :: s)) at 1 by discriminate.
    cbn [app]. rewrite <- app_assoc. reflexivity.
Qed.

Lemma diff_app s t : exists tail, diff (s ++ t) = diff s ++ tail.
Proof.
  destruct s as [|a s].
  - exists (diff t). reflexivity.
  - destruct (shift1_app (a :: s) t) as [tail E]; [discriminate|].
    exists (zip_with (lift2 Qminus) t tail).
    unfold diff. rewrite E. apply zip_with_app.
    now rewrite length_shift1.
Qed.

Lemma rolling_mean_app w s t :
  exists tail, rolling_mean w (s ++ t) = rolling_mean w s ++ tail.
Proof.
  unfold rolling_mean. rewrite length_app, seq_app, map_app.
  eexists. f_equal.
  apply map_ext_in. intros i I. apply in_seq in I.
  rewrite firstn_app.
  replace (S i - List.length s)%nat with 0%nat by lia.
  now rewrite app_nil_r.
Qed.

Lemma calc_rsi_app s t period :
  exists tail, calc_rsi (s ++ t) period = calc_rsi s period ++ tail.
Proof.
  unfold calc_rsi. cbv zeta.
  destruct (diff_app s t) as [d ->].
  unfold clip_lower, clip_upper, neg. rewrite !map_app.
  destruct (rolling_mean_app period
              (map (option_map (fun x => if Qltb x 0 then 0 else x)) (diff s))
              (map (option_map (fun x => if Qltb x 0 then 0 else x)) d))
    as [tg ->].
  destruct (rolling_mean_app period
              (map (option_map Qopp)
                 (map (option_map (fun x => if Qltb 0 x then 0 else x)) (diff s)))
              (map (option_map Qopp)
                 (map (option_map (fun x => if Qltb 0 x then 0 else x)) d)))
    as [tl ->].
  unfold replace_zero_nan, rsi_of_rs. rewrite map_app, zip_with_app, map_app.
  - eauto.
  - rewrite length_map, !length_rolling_mean, !length_map. reflexivity.
Qed.

Lemma make_rows_app df r s l G D df' r' s' l' G' D' :
  List.length r = List.length df -> List.length s = List.length df ->
  List.length l = List.length df -> List.length G = List.length df ->
  List.length D = List.length df ->
  make_rows (df ++ df') (r ++ r') (s ++ s') (l ++ l') (G ++ G') (D ++ D') =
  make_rows df r s l G D ++ make_rows df' r' s' l' G' D'.
Proof.
  revert r s l G D.
  induction df as [|b df IH];
    intros [|r0 r] [|s0 s] [|l0 l] [|g0 G] [|d0 D]; simpl;
    try discriminate; auto.
  intros. f_equal. apply IH; lia.
Qed.

Lemma length_make_rows df r s l G D :
  List.length r = List.length df -> List.length s = List.length df ->
  List.length l = List.length df -> List.length G = List.length df ->
  List.length D = List.length df ->
  List.length (make_rows df r s l G D) = List.length df.
Proof.
  revert r s l G D.
  induction df as [|b df IH];
    intros [|r0 r] [|s0 s] [|l0 l] [|g0 G] [|d0 D]; simpl;
    try discriminate; auto;
    intros; f_equal; apply IH; lia.
Qed.

Lemma length_calc_rsi s period :
  List.length (calc_rsi s period) = List.length s.
Proof. apply calc_rsi_spec. Qed.

Lemma length_flags (f g : option Q -> option Q -> bool) (a b : series) :
  List.length a = List.length b ->
  List.length (zip_with andb (zip_with f (shift1 a) (shift1 b))
                 (zip_with g a b)) = List.length a.
Proof.
  intro H. rewrite !length_zip_with, !length_shift1. lia.
Qed.

Lemma flags_app (f g : option Q -> option Q -> bool) (a b ta tb : series) :
  List.length a = List.length b -> a <> [] ->
  exists tail,
    zip_with andb (zip_with f (shift1 (a ++ ta)) (shift1 (b ++ tb)))
      (zip_with g (a ++ ta) (b ++ tb)) =
    zip_with andb (zip_with f (shift1 a) (shift1 b)) (zip_with g a b) ++ tail.
Proof.
  intros H N.
  assert (Nb : b <> []) by (destruct a, b; simpl in *; congruence).
  destruct (shift1_app a ta N) as [ua ->].
  destruct (shift1_app b tb Nb) as [ub ->].
  rewrite (zip_with_app f) by (rewrite !length_shift1; exact H).
  rewrite (zip_with_app g) by exact H.
  rewrite zip_with_app
    by (rewrite !length_zip_with, !length_shift1; lia).
  eauto.
Qed.

Lemma length_add_indicators candles :
  List.length (add_indicators candles) = List.length candles.
Proof.
  unfold add_indicators. cbv zeta.
  apply length_make_rows;
    rewrite ?length_calc_rsi, ?length_flags, ?length_rolling_mean,
            ?length_map; auto;
    rewrite !length_rolling_mean; reflexivity.
Qed.

Lemma add_indicators_app candles more :
  exists tail,
    add_indicators (candles ++ more) = add_indicators candles ++ tail.
Proof.
  destruct candles as [|b0 candles0] eqn:EC.
  - exists (add_indicators more). reflexivity.
  - rewrite <- EC.
    assert (NE : map (fun b => Some (close b)) candles <> [])
      by (subst candles; discriminate).
    clear EC. unfold add_indicators. cbv zeta. rewrite map_app.
    set (cs := map (fun b => Some (close b)) candles) in *.
    set (cm := map (fun b => Some (close b)) more).
    assert (Lc : List.length cs = List.length candles)
      by (unfold cs; apply length_map).
    destruct (calc_rsi_app cs cm RSI_PERIOD) as [tr ->].
    destruct (rolling_mean_app MA_SHORT cs cm) as [t5 ->].
    destruct (rolling_mean_app MA_LONG cs cm) as [t20 ->].
    assert (L5 : List.length (rolling_mean MA_SHORT cs)
                 = List.length (rolling_mean MA_LONG cs))
      by now rewrite !length_rolling_mean.
    assert (N5 : rolling_mean MA_SHORT cs <> []).
    { intro Z. apply (f_equal (@List.length _)) in Z.
      rewrite length_rolling_mean in Z. destruct cs; [congruence|discriminate]. }
    destruct (flags_app le gt _ _ t5 t20 L5 N5) as [tg ->].
    destruct (flags_app ge lt _ _ t5 t20 L5 N5) as [td ->].
    eexists. apply make_rows_app;
      rewrite ?length_calc_rsi, ?length_flags, ?length_rolling_mean; auto.
Qed.

(** X11: no look-ahead.  The rows [add_indicators] computes for a series
    of candles ([rsi], [ma5], [ma20] and the two cross flags) do not change
    when later candles are appended. *)
Theorem indicators_ignore_later_candles candles more :
  firstn (List.length candles) (add_indicators (candles ++ more)) =
  add_indicators candles.
Proof.
  destruct (add_indicators_app candles more) as [tail ->].
  rewrite <- (length_add_indicators candles) at 1.
  rewrite firstn_app, Nat.sub_diag, firstn_all. cbn [firstn].
  apply app_nil_r.
Qed.

Lemma ewm_loop_app alpha minp st a b :
  exists tail,
    ewm_loop alpha minp st (a ++ b) = ewm_loop alpha minp st a ++ tail.
Proof.
  revert st. induction a as [|x a IH]; intro st; simpl.
  - eauto.
  - destruct (IH (ewm_step alpha st x)) as [tail ->]. eauto.
Qed.

Lemma ewm_mean_app com min_periods s t x :
  ewm_mean com min_periods s = Some x ->
  exists tail, ewm_mean com min_periods (s ++ t) = Some (x ++ tail).
Proof.
  unfold ewm_mean. destruct (Qltb com 0); [discriminate|].
  destruct s as [|v0 rest]; intro E; inversion E; subst x; clear E.
  - destruct t; cbn [app]; eauto.
  - cbn [app].
    destruct (ewm_loop_app (1 / (1 + com)) (Nat.max min_periods 1)
                (mkEwm v0 1 (is_observation v0)) rest t) as [tail ->].
    exists tail. reflexivity.
Qed.

Lemma length_ewm_mean com min_periods s x :
  ewm_mean com min_periods s = Some x -> List.length x = List.length s.
Proof.
  unfold ewm_mean. destruct (Qltb com 0); [discriminate|].
  destruct s as [|v0 rest]; intro E; inversion E; subst; simpl; auto.
  now rewrite length_ewm_loop.
Qed.

Lemma calculate_rsi_app s t period x :
  MarketData.calculate_rsi s period = Some x ->
  exists tail, MarketData.calculate_rsi (s ++ t) period = Some (x ++ tail).
Proof.
  unfold MarketData.calculate_rsi. cbv zeta.
  destruct (diff_app s t) as [d ->].
  unfold clip_lower, clip_upper, neg. rewrite !map_app.
  destruct (ewm_mean _ period
              (map (option_map (fun x => if Qltb x 0 then 0 else x)) (diff s)))
    as [g|] eqn:EG; [|discriminate].
  destruct (ewm_mean _ period
              (map (option_map Qopp)
                 (map (option_map (fun x => if Qltb 0 x then 0 else x))
                    (diff s))))
    as [l|] eqn:EL; [|discriminate].
  intro E. inversion E; subst x; clear E.
  pose proof (length_ewm_mean _ _ _ _ EG) as LG.
  pose proof (length_ewm_mean _ _ _ _ EL) as LL.
  eapply ewm_mean_app in EG. destruct EG as [tg ->].
  eapply ewm_mean_app in EL. destruct EL as [tl ->].
  unfold replace_zero_nan, rsi_of_rs. rewrite map_app, zip_with_app, map_app.
  - eauto.
  - rewrite length_map, LG, LL, !length_map. reflexivity.
Qed.

Lemma live_rows_app df r s l df' r' s' l' :
  List.length r = List.length df -> List.length s = List.length df ->
  List.length l = List.length df ->
  MarketData.make_rows (df ++ df') (r ++ r') (s ++ s') (l ++ l') =
  MarketData.make_rows df r s l ++ MarketData.make_rows df' r' s' l'.
Proof.
  revert r s l.
  induction df as [|c df IH]; intros [|r0 r] [|s0 s] [|l0 l]; simpl;
    try discriminate; auto;
    intros; f_equal; apply IH; lia.
Qed.

Lemma length_live_rows df r s l :
  List.length r = List.length df -> List.length s = List.length df ->
  List.length l = List.length df ->
  List.length (MarketData.make_rows df r s l) = List.length df.
Proof.
  revert r s l.
  induction df as [|c df IH]; intros [|r0 r] [|s0 s] [|l0 l]; simpl;
    try discriminate; auto;
    intros; f_equal; apply IH; lia.
Qed.

Lemma length_calculate_rsi s period x :
  MarketData.calculate_rsi s period = Some x ->
  List.length x = List.length s.
Proof.
  unfold MarketData.calculate_rsi. cbv zeta.
  destruct (ewm_mean _ period (clip_lower 0 (diff s))) as [g|] eqn:EG;
    [|discriminate].
  destruct (ewm_mean _ period (neg (clip_upper 0 (diff s)))) as [l|] eqn:EL;
    [|discriminate].
  intro E. inversion E; subst x; clear E.
  apply length_ewm_mean in EG. apply length_ewm_mean in EL.
  unfold clip_lower, clip_upper, neg in *. rewrite !length_map in *.
  rewrite length_diff in *.
  unfold rsi_of_rs, replace_zero_nan.
  rewrite length_map, length_zip_with, length_map. lia.
Qed.

(** X12: no look-ahead on the live path either.  The frame
    [get_market_data] builds, one row per candle, keeps its rows (Wilder
    RSI and both averages) when later candles are appended. *)
Theorem live_frame_ignores_later_candles candles more :
  exists df df',
    MarketData.get_market_data candles = Some df /\
    MarketData.get_market_data (candles ++ more) = Some df' /\
    List.length df = List.length candles /\
    firstn (List.length candles) df' = df.
Proof.
  unfold MarketData.get_market_data. rewrite map_app.
  set (cs := map (fun c => Some (MarketData.close c)) candles).
  set (cm := map (fun c => Some (MarketData.close c)) more).
  assert (Lc : List.length cs = List.length candles)
    by (unfold cs; apply length_map).
  destruct (calculate_rsi_defined cs Config.RSI_PERIOD) as [rsi E];
    [unfold Config.RSI_PERIOD; lia|].
  pose proof (length_calculate_rsi _ _ _ E) as Lr.
  destruct (calculate_rsi_app cs cm _ _ E) as [tr E'].
  rewrite E, E'.
  destruct (rolling_mean_app Config.MA_SHORT cs cm) as [ts ->].
  destruct (rolling_mean_app Config.MA_LONG cs cm) as [tl ->].
  do 2 eexists. split; [reflexivity|]. split; [reflexivity|].
  assert (L : List.length
                (MarketData.make_rows candles rsi
                   (rolling_mean Config.MA_SHORT cs)
                   (rolling_mean Config.MA_LONG cs)) = List.length candles).
  { apply length_live_rows; rewrite ?length_rolling_mean; congruence. }
  split; [exact L|].
  rewrite live_rows_app by (rewrite ?length_rolling_mean; congruence).
  rewrite <- L at 1.
  rewrite firstn_app, Nat.sub_diag, firstn_all. cbn [firstn].
  apply app_nil_r.
Qed.
End Causality.

(** ** The backtest keeps its books *)

Section Accounting.
Import Pandas Backtest.

Lemma growth_snoc trades t :
  growth (trades ++ [t]) = growth trades * (t_exit_price t / t_entry_price t).
Proof. unfold growth. now rewrite fold_left_app. Qed.

Lemma not_both q : q == 0 -> 0 < q -> False.
Proof. intros E H. rewrite E in H. now apply Qlt_irrefl in H. Qed.

Lemma step_accounted capital st row st' :
  bt_inv st -> accounted capital st -> 0 < close (bar row) ->
  step st row = Some st' -> accounted capital st'.
Proof.
  intros [Hcore _] [Aflat Aopen] Hc. unfold step, decide.
  pose proof (pos_not_zero _ Hc) as C0.
  destruct Hcore as [[P0 Hcash]|(Ppos & Cz & Epos)].
  - destruct (Aflat P0) as [Ac Al].
    assert (Z0 : Qeq_bool (position st) 0 = true) by now apply Qeq_bool_iff.
    assert (NP : Qltb 0 (position st) = false) by (apply Qltb_ge; lra).
    rewrite Z0, NP. cbn [andb].
    destruct (notna (rsi row) && lt (rsi row) (Some RSI_OVERSOLD)).
    + rewrite C0. intro E. injection E as <-.
      unfold accounted. cbn [cash position entry_price trades equity].
      split.
      * intro Z. exfalso.
        apply (not_both _ Z). now apply div_pos.
      * intros _. rewrite <- Ac. apply div_mult_cancel.
        now apply Qeq_bool_false.
    + intro E. injection E as <-.
      unfold accounted. cbn [cash position entry_price trades equity].
      split.
      * intros _. split; [exact Ac|].
        rewrite last_last, P0. ring.
      * intro Z. exfalso. exact (not_both _ P0 Z).
  - specialize (Aopen Ppos).
    rewrite (pos_not_zero _ Ppos). cbn [andb].
    pose proof Ppos as PB. apply Qltb_lt in PB. rewrite PB. cbn [andb].
    destruct (notna (rsi row)).
    + destruct (gt (rsi row) (Some RSI_OVERBOUGHT) || dead row).
      * pose proof (pos_not_zero _ Epos) as E0. rewrite E0.
        intro E. injection E as <-.
        unfold accounted. cbn [cash position entry_price trades equity].
        split.
        -- intros _. split.
           ++ rewrite growth_snoc. cbn [t_exit_price t_entry_price].
              rewrite Qmult_assoc, <- Aopen. field.
              now apply Qeq_bool_false.
           ++ rewrite last_last. ring.
        -- intro Z. exfalso. now apply Qlt_irrefl in Z.
      * intro E. injection E as <-.
        unfold accounted. cbn [cash position entry_price trades equity].
        split; [|intros _; exact Aopen].
        intro Z. exfalso. exact (not_both _ Z Ppos).
    + intro E. injection E as <-.
      unfold accounted. cbn [cash position entry_price trades equity].
      split; [|intros _; exact Aopen].
      intro Z. exfalso. exact (not_both _ Z Ppos).
Qed.

Lemma loop_accounted capital df st st' :
  bt_inv st -> accounted capital st ->
  Forall (fun row => 0 < close (bar row)) df ->
  loop st df = Some st' -> bt_inv st' /\ accounted capital st'.
Proof.
  revert st. induction df as [|row df IH]; intros st I A Hdf E.
  - simpl in E. injection E as <-. auto.
  - inversion Hdf as [|? ? Hrow Hdf']; subst.
    destruct (step_inv st row I Hrow) as (st1 & E1 & I1 & _).
    simpl in E. rewrite E1 in E.
    exact (IH st1 I1 (step_accounted capital st row st1 I A Hrow E1) Hdf' E).
Qed.

Lemma initial_accounted capital : accounted capital (initial_state capital).
Proof.
  split.
  - intros _. unfold growth. simpl. split; [ring|reflexivity].
  - intro Z. simpl in Z. now apply Qlt_irrefl in Z.
Qed.

(** What the run reports, from the state the loop ends in. *)
Lemma run_books candles capital r :
  Forall (fun b => 0 < close b) candles -> 0 < capital ->
  run_backtest candles capital = Done r ->
  r_final r == capital * growth (r_trades r) /\
  last (r_equity r) capital == r_final r /\
  r_total_return r = (r_final r - capital) / capital * 100.
Proof.
  intros Hpos Hcap E. unfold run_backtest in E.
  destruct candles as [|b candles']; [discriminate|].
  remember (dropna (add_indicators (b :: candles'))) as df eqn:Edf.
  assert (Hdf : Forall (fun row => 0 < close (bar row)) df).
  { subst df. apply Forall_forall. intros row I. apply filter_In in I.
    destruct I as [I _]. apply rows_from_candles in I.
    rewrite Forall_forall in Hpos. now apply Hpos. }
  destruct (loop (initial_state capital) df) as [st|] eqn:El; [|discriminate].
  destruct (loop_accounted capital df _ st (initial_inv capital Hcap)
              (initial_accounted capital) Hdf El) as [[Hcore _] [Aflat Aopen]].
  unfold liquidate in E.
  destruct (Qltb 0 (position st)) eqn:PB.
  - apply Qltb_lt in PB. specialize (Aopen PB).
    destruct (rev df) as [|lastrow rest]; [discriminate|].
    destruct (Qeq_bool (entry_price st) 0) eqn:E0; [discriminate|].
    apply Qeq_bool_false in E0.
    unfold summarize in E.
    destruct (Qeq_bool capital 0); [discriminate|].
    destruct (max_drawdown _); [|discriminate].
    injection E as <-.
    cbn [r_final r_trades r_equity r_total_return cash trades equity].
    split; [|split; [|reflexivity]].
    + rewrite growth_snoc. cbn [t_exit_price t_entry_price].
      rewrite Qmult_assoc, <- Aopen. field. exact E0.
    + rewrite last_last. reflexivity.
  - apply Qltb_ge in PB.
    assert (P0 : position st == 0).
    { destruct Hcore as [[P0 _]|(Ppos & _)]; [exact P0|].
      exfalso. apply (Qlt_not_le _ _ Ppos PB). }
    destruct (Aflat P0) as [Ac Al].
    unfold summarize in E.
    destruct (Qeq_bool capital 0); [discriminate|].
    destruct (max_drawdown _); [|discriminate].
    injection E as <-.
    cbn [r_final r_trades r_equity r_total_return cash trades equity].
    auto.
Qed.



(** X14: the reported final capital is the last point of the equity curve
    (the capital itself when the curve is empty), for positive closes and
    capital. *)
Theorem final_capital_is_last_equity candles capital r :
  Forall (fun b => 0 < close b) candles -> 0 < capital ->
  run_backtest candles capital = Done r ->
  last (r_equity r) capital == r_final r.
Proof.
  intros Hpos Hcap E.
  now destruct (run_books candles capital r Hpos Hcap E) as (_ & L & _).
Qed.

Lemma final_capital_is_last_equity_witness :
  exists r,
    run_backtest declining 1000000 = Done r /\
    last (r_equity r) 1000000 == r_final r.
Proof.
  destruct (run_backtest declining 1000000) as [| |r] eqn:E;
    try (vm_compute in E; discriminate).
  exists r. split; [reflexivity|].
  apply (final_capital_is_last_equity declining 1000000 r).
  - vm_compute. repeat constructor.
  - reflexivity.
  - exact E.
Defined.
End Accounting.

(** ** Unrealized P&L of a position *)

Section PositionMore.


End PositionMore.

(** ** The combined report *)

Section CombinedReport.
Import Pandas Backtest Report.


Lemma run_no_data capital : run_backtest [] capital = NoData.
Proof. reflexivity. Qed.

Lemma non_empty_skips a b :
  non_empty (a ++ NoData :: b) = non_empty (a ++ b).
Proof.
  induction a as [|x a IH]; [reflexivity|].
  destruct x; cbn [app non_empty]; auto. now rewrite IH.
Qed.

(** X16: a market whose candles did not come back is left out of the
    combined report: [main] computes the same totals with or without it. *)
Theorem main_leaves_out_empty_market before after :
  Report.main (before ++ [] :: after) = Report.main (before ++ after).
Proof.
  unfold Report.main. rewrite !map_app. cbn [map].
  rewrite run_no_data. now rewrite non_empty_skips.
Qed.







End CombinedReport.

(** ** One run of the agent *)

Section RunOnceFacts.
Import Pandas MarketData Strategy Main.

Lemma get_market_data_frame candles :
  exists df,
    get_market_data candles = Some df /\
    List.length df = List.length candles.
Proof.
  unfold get_market_data.
  set (cs := map (fun c => Some (close c)) candles).
  assert (Lc : List.length cs = List.length candles)
    by (unfold cs; apply length_map).
  destruct (calculate_rsi_defined cs Config.RSI_PERIOD) as [rsi E];
    [unfold Config.RSI_PERIOD; lia|].
  pose proof (length_calculate_rsi _ _ _ E) as Lr.
  rewrite E. eexists. split; [reflexivity|].
  apply length_live_rows; rewrite ?length_rolling_mean; congruence.
Qed.








Lemma analyse_single_candle fetched market c :
  In (market, [c]) fetched ->
  forall signals prices,
    analyse fetched signals prices = Failed RaisedTypeError.
Proof.
  induction fetched as [|[m candles] rest IH]; intros I signals prices.
  - contradiction.
  - cbn [analyse].
    destruct (get_market_data_frame candles) as (df & -> & L).
    destruct I as [E|I].
    + injection E as -> ->. simpl in L.
      destruct df as [|row [|row' df]]; try discriminate.
      reflexivity.
    + destruct df as [|row df]; [now apply IH|].
      destruct (s_close _); [now apply IH|reflexivity].
Qed.

(** X19: a market for which exactly one candle came back makes [run_once]
    fail with a [TypeError] (its signal has no close to print) before any
    paper trade: the portfolio is left as it was, whatever the other
    markets returned. *)
Theorem single_candle_aborts_run amount now pf fetched market c :
  In (market, [c]) fetched ->
  run_once amount now pf fetched = (pf, RaisedTypeError).
Proof.
  intro I. unfold run_once.
  now rewrite (analyse_single_candle fetched market c I).
Qed.

Lemma single_candle_aborts_run_witness :
  run_once 100000 0 (Portfolio.init 3000000)
    [("KRW-BTC"%string, []);
     ("KRW-ETH"%string, [mkCandle 0 100 110 90 105 12])] =
  (Portfolio.init 3000000, RaisedTypeError).
Proof.
  apply (single_candle_aborts_run 100000 0 (Portfolio.init 3000000)
           [("KRW-BTC"%string, []);
            ("KRW-ETH"%string, [mkCandle 0 100 110 90 105 12])]
           "KRW-ETH" (mkCandle 0 100 110 90 105 12)).
  right. left. reflexivity.
Defined.
End RunOnceFacts.
